(** * Telemetry collection and analysis client: a shallow embedding

    The development follows [telemetry_system.py]: a snapshot assembler
    ([TelemetryCollector]) reading optional operating-system facilities, a
    snapshot container with its JSON serialisation ([TelemetrySnapshot]),
    and a client ([ChatGPTTelemetryAnalyzer]) that performs one HTTP
    exchange and extracts a textual answer from the decoded response.

    Python values are modelled by an inductive type, [str] by the list of
    its code points, [dict] by an association list in insertion order, and
    exceptions by an explicit result type.  The operating system and the
    network are explicit records passed to the functions that read them. *)

From Stdlib Require Import List ZArith NArith Lia Bool String Ascii Strings.Byte.
From Stdlib Require Import PrimFloat Sorting.Sorted Permutation DecimalString.
Import ListNotations.

Set Implicit Arguments.
Set Warnings "-register-all,-inexact-float".
Local Open Scope N_scope.

(** ** Python strings *)

(** A Python [str] is a sequence of Unicode code points. *)
Definition pychar := N.
Definition pystr := list pychar.

(** [u "text"] is the Python string with the characters of an ASCII literal. *)
Definition u (s : string) : pystr := map N_of_ascii (list_ascii_of_string s).

Definition chr_newline : pychar := 10.
Definition chr_return : pychar := 13.
Definition chr_quote : pychar := 34.
Definition chr_backslash : pychar := 92.
Definition chr_colon : pychar := 58.

Fixpoint pystr_eqb (a b : pystr) : bool :=
  match a, b with
  | [], [] => true
  | x :: a', y :: b' => N.eqb x y && pystr_eqb a' b'
  | _, _ => false
  end.

Module Str.

(** [str.isspace] on one code point: the characters [str.strip] removes. *)
Definition isspace (c : pychar) : bool :=
  ((9 <=? c) && (c <=? 13)) || ((28 <=? c) && (c <=? 32))
  || (c =? 133) || (c =? 160) || (c =? 5760)
  || ((8192 <=? c) && (c <=? 8202))
  || (c =? 8232) || (c =? 8233) || (c =? 8239) || (c =? 8287) || (c =? 12288).

Fixpoint lstrip (s : pystr) : pystr :=
  match s with
  | c :: s' => if isspace c then lstrip s' else s
  | [] => []
  end.

Definition rstrip (s : pystr) : pystr := rev (lstrip (rev s)).

(** [s.strip()] *)
Definition strip (s : pystr) : pystr := rstrip (lstrip s).

(** [c in s] for a one-character string [c]. *)
Definition contains (c : pychar) (s : pystr) : bool := existsb (N.eqb c) s.

(** The text before and after the first occurrence of [sep], if any. *)
Fixpoint partition (sep : pychar) (s : pystr) : option (pystr * pystr) :=
  match s with
  | [] => None
  | c :: s' =>
      if N.eqb c sep then Some ([], s')
      else match partition sep s' with
           | Some (a, b) => Some (c :: a, b)
           | None => None
           end
  end.

(** [s.split(sep, maxsplit)] for a one-character separator. *)
Fixpoint split (sep : pychar) (maxsplit : nat) (s : pystr) : list pystr :=
  match maxsplit with
  | O => [s]
  | S m =>
      match partition sep s with
      | None => [s]
      | Some (a, b) => a :: split sep m b
      end
  end.

(** [str(n)] for an [int]. *)
Definition of_int (z : Z) : pystr := u (NilZero.string_of_int (Z.to_int z)).

(** [sep.join(parts)] *)
Fixpoint join (sep : pystr) (parts : list pystr) : pystr :=
  match parts with
  | [] => []
  | [p] => p
  | p :: rest => p ++ sep ++ join sep rest
  end.

(** Lexicographic comparison of strings by code point: [a <= b]. *)
Fixpoint leb (a b : pystr) : bool :=
  match a, b with
  | [], _ => true
  | _ :: _, [] => false
  | x :: a', y :: b' => (x <? y) || ((x =? y) && leb a' b')
  end.

End Str.

(** ** Text files

    A file opened in text mode translates the line endings [\r\n] and [\r]
    to [\n]; iterating over it yields the lines, each with its terminator,
    the last one possibly without. *)
Module TextIO.

Fixpoint translate_newlines (s : pystr) : pystr :=
  match s with
  | [] => []
  | c :: s' =>
      if N.eqb c chr_return then
        match s' with
        | d :: s'' =>
            if N.eqb d chr_newline then chr_newline :: translate_newlines s''
            else chr_newline :: translate_newlines s'
        | [] => [chr_newline]
        end
      else c :: translate_newlines s'
  end.

(** The lines of a text whose line endings are already translated. *)
Fixpoint split_lines (cur : pystr) (s : pystr) : list pystr :=
  match s with
  | [] => match cur with [] => [] | _ => [rev cur] end
  | c :: s' =>
      if N.eqb c chr_newline then rev (c :: cur) :: split_lines [] s'
      else split_lines (c :: cur) s'
  end.

(** [for line in handle] *)
Definition lines (text : pystr) : list pystr :=
  split_lines [] (translate_newlines text).

End TextIO.

(** ** UTF-8

    [bytes.decode("utf-8", errors)] as CPython performs it: a well-formed
    sequence yields its code point; an ill-formed one is reported once for
    its longest prefix that could start a well-formed sequence, and
    decoding resumes at the next byte. *)
Module Utf8.

Inductive state :=
| Start
| Pending (needed : nat) (acc lo hi : N).

Inductive lead :=
| LChar (c : pychar)
| LPending (st : state)
| LInvalid.

Definition classify (b : N) : lead :=
  if b <? 128 then LChar b
  else if b <? 194 then LInvalid
  else if b <? 224 then LPending (Pending 0 (N.land b 31) 128 191)
  else if b =? 224 then LPending (Pending 1 (N.land b 15) 160 191)
  else if b =? 237 then LPending (Pending 1 (N.land b 15) 128 159)
  else if b <? 240 then LPending (Pending 1 (N.land b 15) 128 191)
  else if b =? 240 then LPending (Pending 2 (N.land b 7) 144 191)
  else if b <? 244 then LPending (Pending 2 (N.land b 7) 128 191)
  else if b =? 244 then LPending (Pending 2 (N.land b 7) 128 143)
  else LInvalid.

(** The decoder's events: [Some c] for a decoded character, [None] for
    one reported error. [Pending n] still expects [n + 1] bytes. *)
Fixpoint scan (st : state) (bs : list byte) : list (option pychar) :=
  match bs with
  | [] => match st with Start => [] | Pending _ _ _ _ => [None] end
  | b :: rest =>
      let from_start :=
        match classify (Byte.to_N b) with
        | LChar c => Some c :: scan Start rest
        | LPending st' => scan st' rest
        | LInvalid => None :: scan Start rest
        end in
      match st with
      | Start => from_start
      | Pending n acc lo hi =>
          let x := Byte.to_N b in
          if (lo <=? x) && (x <=? hi) then
            let acc' := acc * 64 + N.land x 63 in
            match n with
            | O => Some acc' :: scan Start rest
            | S n' => scan (Pending n' acc' 128 191) rest
            end
          else None :: from_start
      end
  end.

Fixpoint all_decoded (evs : list (option pychar)) : option pystr :=
  match evs with
  | [] => Some []
  | Some c :: evs' =>
      match all_decoded evs' with Some s => Some (c :: s) | None => None end
  | None :: _ => None
  end.

Fixpoint decoded_only (evs : list (option pychar)) : pystr :=
  match evs with
  | [] => []
  | Some c :: evs' => c :: decoded_only evs'
  | None :: evs' => decoded_only evs'
  end.

(** [bs.decode("utf-8")]: [None] stands for [UnicodeDecodeError]. *)
Definition decode (bs : list byte) : option pystr := all_decoded (scan Start bs).

(** [bs.decode("utf-8", "ignore")] *)
Definition decode_ignore (bs : list byte) : pystr := decoded_only (scan Start bs).

Definition byte_of (n : N) : byte :=
  match Byte.of_N n with Some b => b | None => x00 end.

(** The bytes of one code point; [None] for a surrogate, which
    [str.encode("utf-8")] refuses with [UnicodeEncodeError]. *)
Definition encode_char (c : pychar) : option (list byte) :=
  if c <? 128 then Some [byte_of c]
  else if c <? 2048 then
    Some [byte_of (192 + c / 64); byte_of (128 + c mod 64)]
  else if (55296 <=? c) && (c <=? 57343) then None
  else if c <? 65536 then
    Some [byte_of (224 + c / 4096); byte_of (128 + (c / 64) mod 64);
          byte_of (128 + c mod 64)]
  else
    Some [byte_of (240 + c / 262144); byte_of (128 + (c / 4096) mod 64);
          byte_of (128 + (c / 64) mod 64); byte_of (128 + c mod 64)].

(** [s.encode("utf-8")] *)
Fixpoint encode (s : pystr) : option (list byte) :=
  match s with
  | [] => Some []
  | c :: s' =>
      match encode_char c, encode s' with
      | Some bs, Some bs' => Some (bs ++ bs')
      | _, _ => None
      end
  end.

(** The bytes of an ASCII literal. *)
Definition ascii_bytes (s : string) : list byte := list_byte_of_string s.

End Utf8.

(** ** Python values, exceptions and results *)

Inductive pyval :=
| PNone
| PBool (b : bool)
| PInt (z : Z)
| PFloat (f : float)
| PStr (s : pystr)
| PList (l : list pyval)
| PDict (d : list (pystr * pyval)).

(** A [dict] with string keys, in insertion order. *)
Definition dict := list (pystr * pyval).

Inductive exn :=
| OSError
| TimeoutError
| UnicodeDecodeError
| UnicodeEncodeError
| JSONDecodeError
| AttributeError
| ValueError
| RuntimeError (message : pystr)
| OtherError (name : pystr).

Inductive result (A : Type) :=
| Ok (a : A)
| Raise (e : exn).
Arguments Ok {A} a.
Arguments Raise {A} e.

Definition bind {A B} (r : result A) (k : A -> result B) : result B :=
  match r with
  | Ok a => k a
  | Raise e => Raise e
  end.

Notation "x <- r ;; k" := (bind r (fun x => k))
  (at level 61, r at next level, right associativity).

Module Dict.

(** The entry of key [k], if the dictionary has one. *)
Fixpoint lookup (d : dict) (k : pystr) : option pyval :=
  match d with
  | [] => None
  | (k', v) :: d' => if pystr_eqb k' k then Some v else lookup d' k
  end.

(** [d.get(k)]: [None] when the key is absent. *)
Definition get (d : dict) (k : pystr) : pyval :=
  match lookup d k with
  | Some v => v
  | None => PNone
  end.

(** [d[k] = v]: an existing key keeps its position, a new one is appended. *)
Fixpoint set (d : dict) (k : pystr) (v : pyval) : dict :=
  match d with
  | [] => [(k, v)]
  | (k', v') :: d' =>
      if pystr_eqb k' k then (k', v) :: d' else (k', v') :: set d' k v
  end.

(** [d.update(other)] *)
Definition update (d other : dict) : dict :=
  fold_left (fun acc kv => set acc (fst kv) (snd kv)) other d.

Definition keys (d : dict) : list pystr := map fst d.

End Dict.

(** ** The [json] encoder

    [json.dumps(v, indent=..., sort_keys=...)] with the default
    [ensure_ascii=True].  The text written for a [float] is a parameter
    ([floatstr], the encoder's own name for it): it is [float.__repr__]
    except for the three non-finite values. *)
Module Json.

Definition hex_digit (n : N) : pychar :=
  if n <? 10 then 48 + n else 87 + n.

(** Four lower-case hexadecimal digits. *)
Definition hex4 (n : N) : pystr :=
  [hex_digit ((n / 4096) mod 16); hex_digit ((n / 256) mod 16);
   hex_digit ((n / 16) mod 16); hex_digit (n mod 16)].

Definition unicode_escape (n : N) : pystr := chr_backslash :: 117 :: hex4 n.

Definition escape_char (c : pychar) : pystr :=
  if c =? chr_quote then [chr_backslash; chr_quote]
  else if c =? chr_backslash then [chr_backslash; chr_backslash]
  else if c =? 10 then [chr_backslash; 110]
  else if c =? 13 then [chr_backslash; 114]
  else if c =? 9 then [chr_backslash; 116]
  else if c =? 8 then [chr_backslash; 98]
  else if c =? 12 then [chr_backslash; 102]
  else if (32 <=? c) && (c <=? 126) then [c]
  else if c <? 65536 then unicode_escape c
  else
    let n := c - 65536 in
    unicode_escape (N.lor 55296 (N.land (N.shiftr n 10) 1023))
    ++ unicode_escape (N.lor 56320 (N.land n 1023)).

(** [encode_basestring_ascii] *)
Definition encode_str (s : pystr) : pystr :=
  chr_quote :: flat_map escape_char s ++ [chr_quote].

(** Stable insertion by key: what [sorted(dct.items())] computes on the
    items of a dictionary, whose keys are pairwise distinct. *)
Fixpoint insert_item {V} (kv : pystr * V) (l : list (pystr * V)) :=
  match l with
  | [] => [kv]
  | kv' :: l' =>
      if Str.leb (fst kv) (fst kv') then kv :: l else kv' :: insert_item kv l'
  end.

Definition sort_items {V} (l : list (pystr * V)) : list (pystr * V) :=
  fold_right insert_item [] l.

Section Encoder.

Variable floatstr : float -> pystr.
(** [indent]: [None], or [Some n] for [n] spaces per level. *)
Variable indent : option nat.
Variable sort_keys : bool.

Definition item_separator : pystr :=
  match indent with Some _ => u "," | None => u ", " end.
Definition key_separator : pystr := u ": ".

(** The line break and indentation written at nesting depth [level]. *)
Definition newline_indent (level : nat) : pystr :=
  match indent with
  | Some n => chr_newline :: repeat 32 (n * level)
  | None => []
  end.

Definition render_container (open close : pychar) (level : nat)
           (items : list pystr) : pystr :=
  match items with
  | [] => [open; close]
  | _ =>
      open :: newline_indent (S level)
      ++ Str.join (item_separator ++ newline_indent (S level)) items
      ++ newline_indent level ++ [close]
  end.

Definition render_item (kv : pystr * pystr) : pystr :=
  encode_str (fst kv) ++ key_separator ++ snd kv.

Definition order_items {V} (l : list (pystr * V)) : list (pystr * V) :=
  if sort_keys then sort_items l else l.

(** [_iterencode], joined.  A dictionary's values are encoded before its
    items are ordered; the encoder orders first, to the same effect. *)
Fixpoint encode (level : nat) (v : pyval) : pystr :=
  match v with
  | PNone => u "null"
  | PBool true => u "true"
  | PBool false => u "false"
  | PInt z => Str.of_int z
  | PFloat f => floatstr f
  | PStr s => encode_str s
  | PList l =>
      render_container 91 93 level
        ((fix encode_list (l : list pyval) : list pystr :=
            match l with
            | [] => []
            | x :: l' => encode (S level) x :: encode_list l'
            end) l)
  | PDict d =>
      render_container 123 125 level
        (map render_item
           (order_items
              ((fix encode_items (d : list (pystr * pyval)) :=
                  match d with
                  | [] => []
                  | (k, x) :: d' => (k, encode (S level) x) :: encode_items d'
                  end) d)))
  end.

(** [json.dumps(v, indent=indent, sort_keys=sort_keys)] *)
Definition dumps (v : pyval) : pystr := encode 0 v.

End Encoder.

End Json.

(** ** The snapshot container *)

Record TelemetrySnapshot := { data : dict }.

(** [TelemetrySnapshot.to_json] *)
Definition to_json (floatstr : float -> pystr) (self : TelemetrySnapshot) : pystr :=
  Json.dumps floatstr (Some 2%nat) true (PDict (data self)).

(** ** The host

    What [collect] reads from the operating system: the clock, the platform
    identity, the load-average facility, the process counters and two text
    files.  A file is absent, or cannot be opened, or is read to its end; a
    read that fails after the file was opened is not among the states. *)

Inductive loadavg_facility :=
| NoLoadAvg                               (* [os] has no [getloadavg] *)
| LoadAvg (one five fifteen : float)      (* [os.getloadavg()] returns *)
| LoadAvgUnobtainable.                    (* [os.getloadavg()] raises [OSError] *)

Inductive file_state :=
| FileAbsent                              (* [os.path.exists] is false *)
| FileUnreadable                          (* exists; [open] raises [OSError] *)
| FileBytes (content : list byte).        (* exists, opens and reads to its end as these bytes *)

Record times_result := {
  times_user : float;
  times_system : float;
  times_children_user : float;
  times_children_system : float;
  times_elapsed : float
}.

Record host := {
  time_time : float;
  platform_system : pystr;
  platform_release : pystr;
  platform_version : pystr;
  platform_machine : pystr;
  platform_python_version : pystr;
  os_getloadavg : loadavg_facility;
  os_getpid : Z;
  os_times : times_result;
  files : pystr -> file_state
}.

Definition os_path_exists (h : host) (path : pystr) : bool :=
  match files h path with
  | FileAbsent => false
  | _ => true
  end.

(** ** [TelemetryCollector] *)
Module TelemetryCollector.

Definition _platform_info (h : host) : dict :=
  [ (u "system", PStr (platform_system h));
    (u "release", PStr (platform_release h));
    (u "version", PStr (platform_version h));
    (u "machine", PStr (platform_machine h));
    (u "python", PStr (platform_python_version h)) ].

Definition _load_average (h : host) : result pyval :=
  match os_getloadavg h with
  | LoadAvg one five fifteen =>
      Ok (PDict [ (u "1min", PFloat one); (u "5min", PFloat five);
                  (u "15min", PFloat fifteen) ])
  | LoadAvgUnobtainable => Raise OSError
  | NoLoadAvg => Ok PNone
  end.

(** The loop over the lines of an opened file. *)
Fixpoint parse_lines (lines : list pystr) (parsed : dict) : result dict :=
  match lines with
  | [] => Ok parsed
  | line :: rest =>
      match Str.strip line with
      | [] => parse_lines rest parsed
      | _ :: _ =>
          if negb (Str.contains chr_colon line) then parse_lines rest parsed
          else
            match Str.split chr_colon 1 line with
            | [key; value] =>
                parse_lines rest
                  (Dict.set parsed (Str.strip key) (PStr (Str.strip value)))
            | _ => Raise ValueError
            end
      end
  end.

(** The body of the [with] block on a text already decoded. *)
Definition parse_key_value_text (text : pystr) : result dict :=
  parse_lines (TextIO.lines text) [].

Definition _parse_key_value_file (h : host) (path : pystr) : result dict :=
  match files h path with
  | FileBytes content =>
      match Utf8.decode content with
      | Some text => parse_key_value_text text
      | None => Raise UnicodeDecodeError
      end
  | FileAbsent | FileUnreadable => Ok []
  end.

Definition meminfo_path : pystr := u "/proc/meminfo".

Definition _memory_info (h : host) : result dict :=
  let info : dict := [] in
  if os_path_exists h meminfo_path then
    parsed <- _parse_key_value_file h meminfo_path ;;
    Ok (Dict.update info parsed)
  else Ok info.

Definition status_path (h : host) : pystr :=
  u "/proc/" ++ Str.of_int (os_getpid h) ++ u "/status".

Definition _process_info (h : host) : result dict :=
  let usage := os_times h in
  let info : dict :=
    [ (u "pid", PInt (os_getpid h));
      (u "cpu_time_user", PFloat (times_user usage));
      (u "cpu_time_system", PFloat (times_system usage));
      (u "cpu_time_children_user", PFloat (times_children_user usage));
      (u "cpu_time_children_system", PFloat (times_children_system usage));
      (u "elapsed", PFloat (times_elapsed usage)) ] in
  if os_path_exists h (status_path h) then
    parsed <- _parse_key_value_file h (status_path h) ;;
    Ok (Dict.update info parsed)
  else Ok info.

Definition collect (h : host) : result TelemetrySnapshot :=
  let timestamp := time_time h in
  let platform := _platform_info h in
  load_average <- _load_average h ;;
  memory <- _memory_info h ;;
  process <- _process_info h ;;
  Ok {| data :=
          [ (u "timestamp", PFloat timestamp);
            (u "platform", PDict platform);
            (u "load_average", load_average);
            (u "memory", PDict memory);
            (u "process", PDict process) ] |}.

End TelemetryCollector.

(** ** URLs

    What the constructor [urllib.request.Request] does with the URL it is
    given: [unwrap] it, cut the fragment off and read the scheme; a URL
    without a scheme is refused with [ValueError]. *)
Module Urllib.






End Urllib.

(** ** The network

    What [urllib.request.urlopen] delivers to its caller: it returns a
    response only for a final 2xx status, raises [HTTPError] for any other
    final status (a redirect it follows is not final: the statuses 301, 302
    and 303 with a [Location] header are followed for a POST), [URLError]
    for the failures it wraps (name resolution, a refused connection, a
    timeout while connecting or sending), and lets other exceptions through
    unchanged: [do_open] calls [getresponse] outside the handler that wraps
    [OSError], so a timeout while waiting for the response arrives as
    [TimeoutError].  The body of an [HTTPError] is read by the handler that
    caught it, and this read can fail as any read of the connection can.

    A [Request] is the record of the arguments the client passes to the
    constructor, for a URL the constructor accepts ([Urllib.accepts]); for
    any other URL the constructor raises [ValueError] and no request
    exists. *)

Record Request := {
  full_url : pystr;
  req_data : list byte;
  req_headers : list (pystr * pystr);
  req_method : pystr
}.

Inductive urlopen_outcome :=
| HTTPResponse (body : list byte)           (* returned; [response.read()] *)
| HTTPError (code : Z) (body : list byte)   (* [error.code], [error.read()] *)
| HTTPErrorUnread (code : Z) (e : exn)      (* [error.code]; [error.read()] raises *)
| URLError (reason : pystr)                 (* [str(error.reason)] *)
| Failure (e : exn).                        (* another exception of [urlopen] or [read] *)

(** The remote side: the outcome of the [n]-th call of [urlopen], given the
    request and the timeout passed to it. *)
Definition network := nat -> Request -> option float -> urlopen_outcome.

(** [urlopen] on the log of the requests issued so far. *)
Definition urlopen (net : network) (request : Request) (timeout : option float)
           (log : list Request) : urlopen_outcome * list Request :=
  (net (List.length log) request timeout, log ++ [request]).

(** [str(error)] for a [URLError]. *)
Definition URLError_str (reason : pystr) : pystr :=
  u "<urlopen error " ++ reason ++ u ">".

(** ** [ChatGPTTelemetryAnalyzer] *)
Module ChatGPTTelemetryAnalyzer.

Record t := {
  api_key : pystr;
  model : pystr;
  endpoint : pystr;
  request_timeout : option float
}.

(** [isinstance(v, Iterable)], with the elements iteration yields. *)
Definition iterable (v : pyval) : option (list pyval) :=
  match v with
  | PList l => Some l
  | PDict d => Some (map (fun kv => PStr (fst kv)) d)
  | PStr s => Some (map (fun c => PStr [c]) s)
  | PNone | PBool _ | PInt _ | PFloat _ => None
  end.

(** The loop over the choices. *)
Fixpoint first_content (choices : list pyval) : pystr :=
  match choices with
  | [] => []
  | choice :: rest =>
      let message :=
        match choice with
        | PDict c => Dict.get c (u "message")
        | _ => PNone
        end in
      match message with
      | PDict m =>
          match Dict.get m (u "content") with
          | PStr content => Str.strip content
          | _ => first_content rest
          end
      | _ => first_content rest
      end
  end.

Definition _extract_message (response_json : pyval) : result pystr :=
  match response_json with
  | PDict d =>
      let choices := Dict.get d (u "choices") in
      match iterable choices with
      | None => Ok []
      | Some items => Ok (first_content items)
      end
  | _ => Raise AttributeError
  end.

Definition system_instruction : pystr :=
  u "You are a telemetry analyst. Provide concise feedback "
  ++ u "highlighting potential issues or anomalies.".

Definition user_content (snapshot_json : pystr) : pystr :=
  u "Here is a telemetry snapshot. Summarize notable points and "
  ++ u "suggest next steps if something looks problematic." ++ [chr_newline; chr_newline]
  ++ u "```json" ++ [chr_newline] ++ snapshot_json ++ [chr_newline] ++ u "```".

Section Analyze.

Variable floatstr : float -> pystr.
(** [json.loads]: [None] stands for [json.JSONDecodeError], raised on a
    text that is not valid JSON. *)
Variable json_loads : pystr -> option pyval.

Definition payload (self : t) (snapshot : TelemetrySnapshot) : pyval :=
  PDict
    [ (u "model", PStr (model self));
      (u "messages",
        PList
          [ PDict [ (u "role", PStr (u "system"));
                    (u "content", PStr system_instruction) ];
            PDict [ (u "role", PStr (u "user"));
                    (u "content", PStr (user_content (to_json floatstr snapshot))) ] ]);
      (u "temperature", PFloat 0.2) ].

Definition headers (self : t) : list (pystr * pystr) :=
  [ (u "Content-Type", u "application/json");
    (u "Authorization", u "Bearer " ++ api_key self) ].

(** The body and the request built from it, for an endpoint the constructor
    accepts. *)
Definition build_request (self : t) (snapshot : TelemetrySnapshot) : result Request :=
  match Utf8.encode (Json.dumps floatstr None false (payload self snapshot)) with
  | Some body =>
      Ok {| full_url := endpoint self;
            req_data := body;
            req_headers := headers self;
            req_method := u "POST" |}
  | None => Raise UnicodeEncodeError
  end.

(** The [try] block: the exchange and the decoding of the body. *)
Definition exchange (self : t) (net : network) (request : Request)
           (log : list Request) : result pystr * list Request :=
  let (outcome, log') := urlopen net request (request_timeout self) log in
  match outcome with
  | HTTPResponse raw =>
      match Utf8.decode raw with
      | Some body => (Ok body, log')
      | None => (Raise UnicodeDecodeError, log')
      end
  | HTTPError code raw =>
      (Raise (RuntimeError
                (u "ChatGPT API returned HTTP " ++ Str.of_int code ++ u ": "
                 ++ Utf8.decode_ignore raw)), log')
  | HTTPErrorUnread _ e => (Raise e, log')
  | URLError reason =>
      (Raise (RuntimeError
                (u "Failed to reach ChatGPT API: " ++ URLError_str reason)), log')
  | Failure e => (Raise e, log')
  end.

Definition analyze (self : t) (snapshot : TelemetrySnapshot) (net : network)
           (log : list Request) : result dict * list Request :=
  match build_request self snapshot with
  | Raise e => (Raise e, log)
  | Ok request =>
      let (body, log') := exchange self net request log in
      (body <- body ;;
       match json_loads body with
       | None => Raise JSONDecodeError
       | Some parsed =>
           analysis <- _extract_message parsed ;;
           Ok [ (u "analysis", PStr analysis); (u "raw_response", parsed) ]
       end,
       log')
  end.

End Analyze.

End ChatGPTTelemetryAnalyzer.

(** ** The command line

    [argparse] is a parameter: [ArgumentParser.parse_args] for the five
    options the source declares, given their defaults and the argument
    list.  It returns the namespace, or writes its help text to the
    standard output and exits with status 0 ([--help]), or exits with a
    status after writing to the standard error only (status 2 on a usage
    error). *)

Record Namespace := {
  ns_model : pystr;
  ns_endpoint : pystr;
  ns_api_key : option pystr;
  ns_collect_only : bool;
  ns_timeout : float
}.

Inductive parse_outcome :=
| Parsed (args : Namespace)
| ParserExit (status : Z)
| ParserHelp (text : pystr).

Definition arg_parser := Namespace -> list pystr -> parse_outcome.

(** The defaults of the five [add_argument] calls. *)
Definition parser_defaults (environ : pystr -> option pystr) : Namespace :=
  {| ns_model := u "gpt-4o-mini";
     ns_endpoint := u "https://api.openai.com/v1/chat/completions";
     ns_api_key := environ (u "OPENAI_API_KEY");
     ns_collect_only := false;
     ns_timeout := 30 |}.

(** The truth value of an optional string: [None] and [""] are false. *)
Definition truthy (s : option pystr) : bool :=
  match s with
  | Some (_ :: _) => true
  | _ => false
  end.

(** [parser.error] exits with status 2. *)
Definition _parse_args (parse_args : arg_parser) (environ : pystr -> option pystr)
           (argv : list pystr) : parse_outcome :=
  match parse_args (parser_defaults environ) argv with
  | ParserExit status => ParserExit status
  | ParserHelp text => ParserHelp text
  | Parsed args =>
      if negb (ns_collect_only args) && negb (truthy (ns_api_key args))
      then ParserExit 2
      else Parsed args
  end.

(** How a call of [main] ends: it returns a status, or [SystemExit] leaves
    it, or another exception does. *)
Inductive main_outcome :=
| Returned (status : Z)
| SystemExit (status : Z)
| Uncaught (e : exn).

(** What [main] acts on: the values written to the standard output so far
    and the requests issued so far. *)
Record world := {
  stdout : list pyval;
  requests : list Request
}.

(** The key as the [Authorization] header formats it. *)
Definition format_api_key (key : option pystr) : pystr :=
  match key with
  | Some k => k
  | None => u "None"
  end.

(** Writing to the standard output: [print] and [file.write] raise
    [UnicodeEncodeError], and write nothing, when the encoding of the stream
    has no bytes for the text (a lone surrogate, for one); [stdout_encodes]
    tells which texts it has bytes for.  [main] writes strings only. *)
Definition print (stdout_encodes : pystr -> bool) (value : pyval) (w : world)
  : result world :=
  let written := {| stdout := stdout w ++ [value]; requests := requests w |} in
  match value with
  | PStr text => if stdout_encodes text then Ok written else Raise UnicodeEncodeError
  | _ => Ok written
  end.

(** [main], on a standard output described by [stdout_encodes]. *)
Definition main_on (stdout_encodes : pystr -> bool)
           (floatstr : float -> pystr) (json_loads : pystr -> option pyval)
           (parse_args : arg_parser) (environ : pystr -> option pystr)
           (h : host) (net : network) (argv : list pystr) (w : world)
  : main_outcome * world :=
  match _parse_args parse_args environ argv with
  | ParserExit status => (SystemExit status, w)
  | ParserHelp text =>
      match print stdout_encodes (PStr text) w with
      | Ok w' => (SystemExit 0, w')
      | Raise e => (Uncaught e, w)
      end
  | Parsed args =>
      match TelemetryCollector.collect h with
      | Raise e => (Uncaught e, w)
      | Ok snapshot =>
          if ns_collect_only args then
            match print stdout_encodes (PStr (to_json floatstr snapshot)) w with
            | Ok w' => (Returned 0, w')
            | Raise e => (Uncaught e, w)
            end
          else
            let analyzer :=
              {| ChatGPTTelemetryAnalyzer.api_key := format_api_key (ns_api_key args);
                 ChatGPTTelemetryAnalyzer.model := ns_model args;
                 ChatGPTTelemetryAnalyzer.endpoint := ns_endpoint args;
                 ChatGPTTelemetryAnalyzer.request_timeout := Some (ns_timeout args) |} in
            match ChatGPTTelemetryAnalyzer.analyze floatstr json_loads analyzer snapshot
                    net (requests w) with
            | (Raise e, log) => (Uncaught e, {| stdout := stdout w; requests := log |})
            | (Ok result, log) =>
                let w' := {| stdout := stdout w; requests := log |} in
                match Dict.lookup result (u "analysis") with
                | Some analysis =>
                    match print stdout_encodes analysis w' with
                    | Ok w'' => (Returned 0, w'')
                    | Raise e => (Uncaught e, w')
                    end
                | None => (Uncaught (OtherError (u "KeyError")), w')
                end
            end
      end
  end.

(** [main] on a standard output that has bytes for every text printed. *)
Definition main (floatstr : float -> pystr) (json_loads : pystr -> option pyval)
           (parse_args : arg_parser) (environ : pystr -> option pystr)
           (h : host) (net : network) (argv : list pystr) (w : world)
  : main_outcome * world :=
  main_on (fun _ => true) floatstr json_loads parse_args environ h net argv w.

(** ** Notions the properties are stated with *)

(** A JSON text written with ['] where JSON has the double quote. *)
Definition json_text (s : string) : pystr :=
  map (fun c => if c =? 39 then chr_quote else c) (u s).

(** The bytes of a text of code points below 256. *)
Definition latin_bytes (s : pystr) : list byte := map Utf8.byte_of s.

(** A line of whitespace only. *)
Definition blank (line : pystr) : Prop :=
  Forall (fun c => Str.isspace c = true) line.

(** The lines the key/value parser passes over. *)
Definition ignored (line : pystr) : Prop :=
  blank line \/ ~ In chr_colon line.

(** [line] reads as [key: value] at its first colon, both sides trimmed. *)
Definition entry_of (line key value : pystr) : Prop :=
  exists a b,
    line = a ++ chr_colon :: b /\ ~ In chr_colon a
    /\ key = Str.strip a /\ value = Str.strip b.

(** The entry a line contributes, as a function. *)
Definition key_value (line : pystr) : option (pystr * pystr) :=
  match Str.partition chr_colon line with
  | Some (a, b) => Some (Str.strip a, Str.strip b)
  | None => None
  end.

(** One turn of the parser's loop, on a line taken alone. *)
Definition parse_step (parsed : dict) (line : pystr) : dict :=
  match key_value line with
  | Some (k, v) => Dict.set parsed k (PStr v)
  | None => parsed
  end.

(** *** Response shapes *)

Definition is_mapping (v : pyval) : Prop := exists d, v = PDict d.
Definition is_text (v : pyval) : Prop := exists s, v = PStr s.
Definition is_list (v : pyval) : Prop := exists l, v = PList l.

(** The field [k] of [d] is missing, or present with a value that is not a [P]. *)
Definition missing_or_not (P : pyval -> Prop) (d : dict) (k : pystr) : Prop :=
  match Dict.lookup d k with
  | None => True
  | Some v => ~ P v
  end.

(** The choice carries the text [s]: it is an object whose [message] is an
    object whose [content] is the string [s]. *)
Definition text_of (choice : pyval) (s : pystr) : Prop :=
  exists c m,
    choice = PDict c
    /\ Dict.lookup c (u "message") = Some (PDict m)
    /\ Dict.lookup m (u "content") = Some (PStr s).

(** The choice yields no text: it is not an object, or its [message] is
    missing or not an object, or the message's [content] is missing or not a
    string. *)
Definition contentless (choice : pyval) : Prop :=
  ~ is_mapping choice
  \/ exists c,
       choice = PDict c
       /\ (missing_or_not is_mapping c (u "message")
           \/ exists m,
                Dict.lookup c (u "message") = Some (PDict m)
                /\ missing_or_not is_text m (u "content")).

(** A response object without any text: [choices] is absent, or is not a
    list, or is a list (possibly empty) of choices that yield no text. *)
Definition degenerate (response : dict) : Prop :=
  Dict.lookup response (u "choices") = None
  \/ (exists v, Dict.lookup response (u "choices") = Some v /\ ~ is_list v)
  \/ (exists choices,
         Dict.lookup response (u "choices") = Some (PList choices)
         /\ Forall contentless choices).

(** The text of a choice, as a function. *)
Definition content_of (choice : pyval) : option pystr :=
  match choice with
  | PDict c =>
      match Dict.lookup c (u "message") with
      | Some (PDict m) =>
          match Dict.lookup m (u "content") with
          | Some (PStr s) => Some s
          | _ => None
          end
      | _ => None
      end
  | _ => None
  end.

(** Following the specification's words: iterate the choices in order and
    return the first message content that is a non-empty string, trimmed;
    the empty string if no choice yields one. *)
Fixpoint spec_first_nonempty_content (choices : list pyval) : pystr :=
  match choices with
  | [] => []
  | choice :: rest =>
      match content_of choice with
      | Some ((_ :: _) as s) => Str.strip s
      | _ => spec_first_nonempty_content rest
      end
  end.

Definition spec_extract_message (response : dict) : pystr :=
  match Dict.lookup response (u "choices") with
  | Some (PList choices) => spec_first_nonempty_content choices
  | _ => []
  end.

(** A choice object [{"message": {"content": s}}]. *)
Definition choice_with (s : pystr) : pyval :=
  PDict [ (u "message", PDict [ (u "content", PStr s) ]) ].

Definition response_empty_then_text : dict :=
  [ (u "choices", PList [ choice_with (u ""); choice_with (u "hi") ]) ].

Definition response_hello : dict :=
  [ (u "choices", PList [ choice_with (u " hello ") ]) ].

(** *** Hosts *)

(** The two files the collector reads decode as UTF-8, when they are there. *)
Definition readable (h : host) : Prop :=
  forall path content,
    path = TelemetryCollector.meminfo_path \/ path = TelemetryCollector.status_path h ->
    files h path = FileBytes content -> Utf8.decode content <> None.

Definition with_loadavg (h : host) (l : loadavg_facility) : host :=
  {| time_time := time_time h;
     platform_system := platform_system h;
     platform_release := platform_release h;
     platform_version := platform_version h;
     platform_machine := platform_machine h;
     platform_python_version := platform_python_version h;
     os_getloadavg := l;
     os_getpid := os_getpid h;
     os_times := os_times h;
     files := files h |}.

Definition with_file (h : host) (path : pystr) (f : file_state) : host :=
  {| time_time := time_time h;
     platform_system := platform_system h;
     platform_release := platform_release h;
     platform_version := platform_version h;
     platform_machine := platform_machine h;
     platform_python_version := platform_python_version h;
     os_getloadavg := os_getloadavg h;
     os_getpid := os_getpid h;
     os_times := os_times h;
     files := fun p => if pystr_eqb p path then f else files h p |}.

(** A host without a load-average facility and without the two files. *)
Definition bare_host : host :=
  {| time_time := 1.5;
     platform_system := u "Windows";
     platform_release := u "10";
     platform_version := u "10.0.19045";
     platform_machine := u "AMD64";
     platform_python_version := u "3.11.2";
     os_getloadavg := NoLoadAvg;
     os_getpid := 4242;
     os_times := {| times_user := 0.5; times_system := 0.25;
                    times_children_user := 0; times_children_system := 0;
                    times_elapsed := 2 |};
     files := fun _ => FileAbsent |}.

Definition meminfo_bytes : list byte :=
  Utf8.ascii_bytes "MemTotal:       16 kB" ++ [x0a]
  ++ [x0a]
  ++ Utf8.ascii_bytes "no colon here" ++ [x0a]
  ++ Utf8.ascii_bytes "Stamp: 12:30:05" ++ [x0d; x0a].

Definition status_bytes : list byte :=
  Utf8.ascii_bytes "Name:" ++ [x09] ++ Utf8.ascii_bytes "python3" ++ [x0a]
  ++ Utf8.ascii_bytes "Pid:" ++ [x09] ++ Utf8.ascii_bytes "4242" ++ [x0a].

(** A host with the facility and both files. *)
Definition linux_host : host :=
  with_file
    (with_file (with_loadavg bare_host (LoadAvg 0.25 0.5 0.75))
               (u "/proc/meminfo") (FileBytes meminfo_bytes))
    (u "/proc/4242/status") (FileBytes status_bytes).

(** The facility exists and its call fails. *)
Definition host_loadavg_unobtainable : host :=
  with_loadavg linux_host LoadAvgUnobtainable.

(** The process name in the status file is not UTF-8. *)
Definition host_status_not_utf8 : host :=
  with_file linux_host (u "/proc/4242/status")
            (FileBytes (Utf8.ascii_bytes "Name:" ++ [x09; xff; x0a])).

(** *** Texts *)

(** Only code points below 128. *)
Definition ascii_only (s : pystr) : Prop := Forall (fun c => c < 128) s.

Definition ascii_onlyb (s : pystr) : bool := forallb (fun c => c <? 128) s.

(** *** Requests *)

(** The request [analyze] hands to [urlopen]. *)
Definition request_of (floatstr : float -> pystr) (self : ChatGPTTelemetryAnalyzer.t)
           (snapshot : TelemetrySnapshot) : Request :=
  {| full_url := ChatGPTTelemetryAnalyzer.endpoint self;
     req_data :=
       latin_bytes
         (Json.dumps floatstr None false
            (ChatGPTTelemetryAnalyzer.payload floatstr self snapshot));
     req_headers :=
       [ (u "Content-Type", u "application/json");
         (u "Authorization", u "Bearer " ++ ChatGPTTelemetryAnalyzer.api_key self) ];
     req_method := u "POST" |}.

(** *** Sample inputs *)

(** The text of the floats that occur in the samples; the encoder's float
    formatting is a parameter of the development. *)
Definition sample_floatstr (f : float) : pystr :=
  if PrimFloat.eqb f 0.2 then u "0.2"
  else if PrimFloat.eqb f 1.5 then u "1.5"
  else if PrimFloat.eqb f 0.25 then u "0.25"
  else if PrimFloat.eqb f 0.5 then u "0.5"
  else if PrimFloat.eqb f 0.75 then u "0.75"
  else if PrimFloat.eqb f 2 then u "2.0"
  else u "0.0".

(** A decoder for the bodies of the samples; [None] on any other text. *)
Definition sample_json_loads (text : pystr) : option pyval :=
  if pystr_eqb text (json_text "{'choices':[{'message':{'content':' hello '}}]}")
  then Some (PDict response_hello)
  else if pystr_eqb text (json_text "{'choices':[]}")
  then Some (PDict [ (u "choices", PList []) ])
  else if pystr_eqb text (u "{}") then Some (PDict [])
  else if pystr_eqb text (u "[]") then Some (PList [])
  else None.

Definition sample_analyzer : ChatGPTTelemetryAnalyzer.t :=
  {| ChatGPTTelemetryAnalyzer.api_key := u "sk-test";
     ChatGPTTelemetryAnalyzer.model := u "gpt-4o-mini";
     ChatGPTTelemetryAnalyzer.endpoint := u "https://api.openai.com/v1/chat/completions";
     ChatGPTTelemetryAnalyzer.request_timeout := Some 30%float |}.

Definition sample_snapshot : TelemetrySnapshot :=
  {| data := [ (u "timestamp", PFloat 1.5); (u "load_average", PNone) ] |}.

(** The server answers every request alike. *)
Definition always (outcome : urlopen_outcome) : network := fun _ _ _ => outcome.

(** The first request fails as [first] says; any later one would succeed. *)
Definition fails_once (first : urlopen_outcome) : network :=
  fun n _ _ =>
    match n with
    | O => first
    | S _ => HTTPResponse (latin_bytes (json_text "{'choices':[{'message':{'content':' hello '}}]}"))
    end.

(** *** Contents of values *)

(** The invariant of Python's [dict]: the keys are pairwise distinct, at
    every depth. *)
Fixpoint well_formed (v : pyval) : Prop :=
  match v with
  | PList l =>
      (fix all (l : list pyval) : Prop :=
         match l with
         | [] => True
         | x :: l' => well_formed x /\ all l'
         end) l
  | PDict d =>
      NoDup (map fst d)
      /\ (fix all (d : list (pystr * pyval)) : Prop :=
            match d with
            | [] => True
            | (_, x) :: d' => well_formed x /\ all d'
            end) d
  | _ => True
  end.

(** Two values have identical content: the same scalars, lists with
    identical elements in the same order, dictionaries with as many entries
    and, under each key of the first, an identical value in the second.
    The order in which a dictionary received its keys plays no part. *)
Fixpoint same_content (v1 v2 : pyval) : Prop :=
  match v1, v2 with
  | PNone, PNone => True
  | PBool a, PBool b => a = b
  | PInt a, PInt b => a = b
  | PFloat a, PFloat b => a = b
  | PStr a, PStr b => a = b
  | PList l1, PList l2 =>
      (fix go (l1 l2 : list pyval) : Prop :=
         match l1, l2 with
         | [], [] => True
         | x :: l1', y :: l2' => same_content x y /\ go l1' l2'
         | _, _ => False
         end) l1 l2
  | PDict d1, PDict d2 =>
      List.length d1 = List.length d2
      /\ (fix go (d1 : list (pystr * pyval)) : Prop :=
            match d1 with
            | [] => True
            | (k, x) :: d1' =>
                (exists y, Dict.lookup d2 k = Some y /\ same_content x y) /\ go d1'
            end) d1
  | _, _ => False
  end.

(** The keys of consecutive items are in lexicographic order. *)
Definition key_le {V} (a b : pystr * V) : Prop := Str.leb (fst a) (fst b) = true.

(** The sample snapshot, its keys inserted in the opposite order. *)
Definition sample_snapshot_reordered : TelemetrySnapshot :=
  {| data := [ (u "load_average", PNone); (u "timestamp", PFloat 1.5) ] |}.

(** The keys of a list are pairwise distinct, as a test. *)
Fixpoint distinctb (keys : list pystr) : bool :=
  match keys with
  | [] => true
  | k :: keys' => negb (existsb (pystr_eqb k) keys') && distinctb keys'
  end.

(** *** Bodies that are not JSON *)

(** The body is not valid JSON: its bytes are not UTF-8, or they are the
    UTF-8 encoding of a text that [json.loads] refuses. *)
Definition invalid_json (json_loads : pystr -> option pyval) (raw : list byte) : Prop :=
  match Utf8.decode raw with
  | Some body => json_loads body = None
  | None => True
  end.

(** *** Trimmed texts *)

(** No whitespace at either end. *)
Definition trimmed (s : pystr) : Prop :=
  (forall c t, s = c :: t -> Str.isspace c = false)
  /\ (forall t c, s = t ++ [c] -> Str.isspace c = false).

(** *** Undecodable files *)

(** The file at [path] is there and its bytes are not UTF-8. *)
Definition undecodable (h : host) (path : pystr) : Prop :=
  exists content, files h path = FileBytes content /\ Utf8.decode content = None.

(** The fixed fields of the process section. *)
Definition process_fields (h : host) : dict :=
  [ (u "pid", PInt (os_getpid h));
    (u "cpu_time_user", PFloat (times_user (os_times h)));
    (u "cpu_time_system", PFloat (times_system (os_times h)));
    (u "cpu_time_children_user", PFloat (times_children_user (os_times h)));
    (u "cpu_time_children_system", PFloat (times_children_system (os_times h)));
    (u "elapsed", PFloat (times_elapsed (os_times h))) ].

(** A status file with a line whose key is [pid]. *)
Definition host_status_pid : host :=
  with_file linux_host (u "/proc/4242/status")
            (FileBytes (Utf8.ascii_bytes "pid: shadow" ++ [x0a]
                        ++ Utf8.ascii_bytes "State: R" ++ [x0a])).

(** *** Printable texts *)

(** A printable ASCII character, the space included. *)
Definition printable (c : pychar) : Prop := 32 <= c <= 126.

Definition printableb (s : pystr) : bool :=
  forallb (fun c => (32 <=? c) && (c <=? 126)) s.

(** The sample analyzer with another key. *)
Definition sample_analyzer_other_key : ChatGPTTelemetryAnalyzer.t :=
  {| ChatGPTTelemetryAnalyzer.api_key := u "sk-other";
     ChatGPTTelemetryAnalyzer.model := ChatGPTTelemetryAnalyzer.model sample_analyzer;
     ChatGPTTelemetryAnalyzer.endpoint := ChatGPTTelemetryAnalyzer.endpoint sample_analyzer;
     ChatGPTTelemetryAnalyzer.request_timeout := None |}.

(** *** Sample command lines *)

(** A parser for the command lines of the samples: no argument, or
    [--collect-only] alone; it exits with status 2 on any other. *)
Definition sample_parse_args : arg_parser :=
  fun defaults argv =>
    match argv with
    | [] => Parsed defaults
    | [a] =>
        if pystr_eqb a (u "--collect-only") then
          Parsed {| ns_model := ns_model defaults;
                    ns_endpoint := ns_endpoint defaults;
                    ns_api_key := ns_api_key defaults;
                    ns_collect_only := true;
                    ns_timeout := ns_timeout defaults |}
        else ParserExit 2
    | _ => ParserExit 2
    end.

Definition no_environ : pystr -> option pystr := fun _ => None.

Definition environ_with_key : pystr -> option pystr :=
  fun name => if pystr_eqb name (u "OPENAI_API_KEY") then Some (u "sk-test") else None.

Definition empty_world : world := {| stdout := []; requests := [] |}.

(** The analyzer [main] builds from a namespace whose key is [key]. *)
Definition analyzer_of (args : Namespace) (key : pystr) : ChatGPTTelemetryAnalyzer.t :=
  {| ChatGPTTelemetryAnalyzer.api_key := key;
     ChatGPTTelemetryAnalyzer.model := ns_model args;
     ChatGPTTelemetryAnalyzer.endpoint := ns_endpoint args;
     ChatGPTTelemetryAnalyzer.request_timeout := Some (ns_timeout args) |}.

(** *** Standard outputs *)

(** A standard output encoded as UTF-8 with the strict error handler: it
    has bytes for every text without a lone surrogate. *)
Definition utf8_stdout (text : pystr) : bool :=
  match Utf8.encode text with
  | Some _ => true
  | None => false
  end.

(** A response whose one choice holds a lone surrogate, as [json.loads]
    decodes the escape [\ud83d]. *)
Definition response_surrogate : dict :=
  [ (u "choices", PList [ choice_with [55357] ]) ].

(** A decoder for the body with the lone surrogate; [None] on any other
    text. *)
Definition surrogate_json_loads (text : pystr) : option pyval :=
  if pystr_eqb text (json_text "{'choices':[{'message':{'content':'\ud83d'}}]}")
  then Some (PDict response_surrogate)
  else None.

(** A parser that answers every command line as [--help] is answered. *)
Definition help_parse_args : arg_parser :=
  fun _ _ => ParserHelp (u "usage: telemetry_system.py [-h]").

(** * Properties *)

(** ** Strings *)

Lemma pystr_eqb_spec (a b : pystr) : pystr_eqb a b = true <-> a = b.
Proof.
  revert b; induction a as [|x a IH]; intros [|y b]; simpl;
    try (split; [discriminate | discriminate]); try tauto.
  rewrite andb_true_iff, N.eqb_eq, IH.
  split; [intros [-> ->]; reflexivity | intros H; inversion H; auto].
Qed.

Lemma pystr_eqb_refl (a : pystr) : pystr_eqb a a = true.
Proof. apply pystr_eqb_spec; reflexivity. Qed.

Lemma pystr_eqb_neq (a b : pystr) : pystr_eqb a b = false <-> a <> b.
Proof.
  rewrite <- pystr_eqb_spec. destruct (pystr_eqb a b); split; congruence.
Qed.

Lemma contains_In (c : pychar) (s : pystr) : Str.contains c s = true <-> In c s.
Proof.
  unfold Str.contains. rewrite existsb_exists. split.
  - intros (x & Hx & E). apply N.eqb_eq in E. subst. exact Hx.
  - intros H. exists c. split; [exact H | apply N.eqb_refl].
Qed.

Lemma partition_Some (sep : pychar) (s a b : pystr) :
  Str.partition sep s = Some (a, b) <-> s = a ++ sep :: b /\ ~ In sep a.
Proof.
  revert a b; induction s as [|c s IH]; intros a b; simpl.
  - split; [discriminate | intros [H _]; destruct a; discriminate].
  - destruct (N.eqb_spec c sep) as [->|Hne].
    + split.
      * intros H; inversion H; subst; simpl; auto.
      * intros [H Hn]. destruct a as [|x a]; simpl in H.
        -- inversion H; reflexivity.
        -- inversion H; subst. exfalso; apply Hn; left; reflexivity.
    + destruct (Str.partition sep s) as [[a' b']|] eqn:E.
      * split.
        -- intros H; inversion H; subst. destruct (proj1 (IH a' b) eq_refl) as [-> Hn].
           split; [reflexivity|]. simpl. intros [H1|H1]; [congruence | auto].
        -- intros [H Hn]. destruct a as [|x a]; simpl in H; inversion H; subst.
           ++ congruence.
           ++ assert (Some (a', b') = Some (a, b)) as E'.
              { apply IH. split; [reflexivity|]. intros Hin; apply Hn; right; exact Hin. }
              inversion E'; reflexivity.
      * split; [discriminate|].
        intros [H Hn]. destruct a as [|x a]; simpl in H; inversion H; subst.
        -- congruence.
        -- assert (None = Some (a, b)) as E'.
           { apply IH. split; [reflexivity|]. intros Hin; apply Hn; right; exact Hin. }
           discriminate.
Qed.

Lemma partition_None (sep : pychar) (s : pystr) :
  Str.partition sep s = None <-> ~ In sep s.
Proof.
  induction s as [|c s IH]; simpl.
  - tauto.
  - destruct (N.eqb_spec c sep) as [->|Hne].
    + split; [discriminate | intros H; exfalso; apply H; auto].
    + destruct (Str.partition sep s) as [[a b]|].
      * split; [discriminate|]. intros H. exfalso.
        assert (Some (a, b) = None) by (apply IH; intros Hin; apply H; auto).
        discriminate.
      * split; [|reflexivity]. intros _ [H|H]; [congruence|].
        revert H. apply IH. reflexivity.
Qed.

Lemma lstrip_nil (s : pystr) : Str.lstrip s = [] <-> blank s.
Proof.
  unfold blank. induction s as [|c s IH]; simpl.
  - split; auto.
  - destruct (Str.isspace c) eqn:E.
    + rewrite IH. split; [intros H; constructor; auto | intros H; inversion H; auto].
    + split; [discriminate | intros H; apply Forall_inv in H; simpl in H; congruence].
Qed.

Lemma lstrip_head (s : pystr) (c : pychar) (t : pystr) :
  Str.lstrip s = c :: t -> Str.isspace c = false.
Proof.
  induction s as [|x s IH]; simpl; [discriminate|].
  destruct (Str.isspace x) eqn:E; [exact IH|].
  intros H; inversion H; subst; exact E.
Qed.

Lemma blank_rev (s : pystr) : blank (rev s) <-> blank s.
Proof.
  unfold blank. rewrite !Forall_forall. split; intros H x Hx; apply H.
  - apply in_rev; rewrite rev_involutive; exact Hx.
  - apply in_rev; exact Hx.
Qed.

Lemma strip_nil (s : pystr) : Str.strip s = [] <-> blank s.
Proof.
  unfold Str.strip, Str.rstrip. split.
  - intros H. apply (f_equal (@rev pychar)) in H. rewrite rev_involutive in H.
    simpl in H. apply lstrip_nil in H. apply (proj1 (blank_rev _)) in H.
    destruct (Str.lstrip s) as [|c t] eqn:E.
    + apply lstrip_nil; exact E.
    + apply lstrip_head in E. apply Forall_inv in H. simpl in H. congruence.
  - intros H. apply lstrip_nil in H. rewrite H. reflexivity.
Qed.

Lemma blank_no_colon (line : pystr) : blank line -> ~ In chr_colon line.
Proof.
  unfold blank. rewrite Forall_forall. intros H Hin.
  specialize (H _ Hin). discriminate.
Qed.

(** ** Dictionaries *)

Lemma lookup_set (d : dict) (k k' : pystr) (v : pyval) :
  Dict.lookup (Dict.set d k v) k' = if pystr_eqb k k' then Some v else Dict.lookup d k'.
Proof.
  induction d as [|[k0 v0] d IH]; simpl.
  - reflexivity.
  - destruct (pystr_eqb k0 k) eqn:E; simpl.
    + apply pystr_eqb_spec in E. subst k0.
      destruct (pystr_eqb k k'); reflexivity.
    + destruct (pystr_eqb k0 k') eqn:E'.
      * apply pystr_eqb_spec in E'. subst k0.
        destruct (pystr_eqb k k') eqn:E2; [|reflexivity].
        apply pystr_eqb_spec in E2. subst. rewrite pystr_eqb_refl in E. discriminate.
      * exact IH.
Qed.

(** ** The key/value parser *)

Lemma entry_of_key_value (line k v : pystr) :
  entry_of line k v <-> key_value line = Some (k, v).
Proof.
  unfold entry_of, key_value. split.
  - intros (a & b & H & Hn & -> & ->).
    rewrite (proj2 (partition_Some chr_colon line a b) (conj H Hn)). reflexivity.
  - destruct (Str.partition chr_colon line) as [[a b]|] eqn:E; [|discriminate].
    intros H. inversion H; subst. apply partition_Some in E.
    exists a, b. tauto.
Qed.

Lemma key_value_None (line : pystr) :
  key_value line = None <-> ~ In chr_colon line.
Proof.
  unfold key_value. rewrite <- partition_None.
  destruct (Str.partition chr_colon line) as [[a b]|]; split; congruence.
Qed.

Lemma not_ignored_iff (line : pystr) :
  ~ ignored line <-> In chr_colon line.
Proof.
  unfold ignored. split.
  - intros H. destruct (in_dec N.eq_dec chr_colon line) as [Hin|Hn]; [exact Hin|].
    exfalso. apply H. right. exact Hn.
  - intros Hin [Hb|Hn]; [apply (blank_no_colon Hb Hin) | exact (Hn Hin)].
Qed.

Lemma parse_lines_fold (lines : list pystr) (parsed : dict) :
  TelemetryCollector.parse_lines lines parsed = Ok (fold_left parse_step lines parsed).
Proof.
  revert parsed; induction lines as [|line rest IH]; intros parsed; simpl.
  - reflexivity.
  - unfold parse_step at 2.
    destruct (Str.strip line) as [|c t] eqn:Es.
    + assert (key_value line = None) as ->.
      { apply key_value_None, blank_no_colon, strip_nil. exact Es. }
      apply IH.
    + destruct (Str.contains chr_colon line) eqn:Ec; simpl.
      * apply contains_In in Ec. unfold key_value.
        destruct (Str.partition chr_colon line) as [[a b]|] eqn:Ep.
        -- simpl. apply IH.
        -- apply partition_None in Ep. contradiction.
      * assert (key_value line = None) as ->.
        { apply key_value_None. intros Hin. apply contains_In in Hin. congruence. }
        apply IH.
Qed.

Lemma snoc_split (A : Type) (l before after : list A) (x y : A) :
  l ++ [x] = before ++ y :: after ->
  (after = [] /\ before = l /\ y = x)
  \/ (exists after', after = after' ++ [x] /\ l = before ++ y :: after').
Proof.
  destruct after as [|z after'] using rev_ind; intros H.
  - left. apply app_inj_tail in H. destruct H; subst; auto.
  - right. clear IHafter'. exists after'.
    change (before ++ y :: after' ++ [z]) with (before ++ (y :: after') ++ [z]) in H.
    rewrite app_assoc in H. apply app_inj_tail in H. destruct H; subst; auto.
Qed.

Lemma lookup_fold_parse_step (lines : list pystr) (acc : dict) (k : pystr) (x : pyval) :
  Dict.lookup (fold_left parse_step lines acc) k = Some x <->
  (exists before line after v,
      lines = before ++ line :: after /\ key_value line = Some (k, v) /\ x = PStr v
      /\ forall line', In line' after -> forall v', key_value line' <> Some (k, v'))
  \/ (Dict.lookup acc k = Some x
      /\ forall line', In line' lines -> forall v', key_value line' <> Some (k, v')).
Proof.
  revert x; induction lines as [|l lines IH] using rev_ind; intros x.
  - simpl. split.
    + intros H. right. split; [exact H | intros ? []].
    + intros [(before & line & after & v & H & _)|[H _]]; [|exact H].
      destruct before; discriminate.
  - rewrite fold_left_app. simpl.
    set (d := fold_left parse_step lines acc) in *.
    assert ((forall v', key_value l <> Some (k, v')) ->
            Dict.lookup (parse_step d l) k = Dict.lookup d k) as Hother.
    { intros Hk. unfold parse_step. destruct (key_value l) as [[k0 v0]|] eqn:E; [|reflexivity].
      rewrite lookup_set. destruct (pystr_eqb k0 k) eqn:Ek; [|reflexivity].
      apply pystr_eqb_spec in Ek. subst. exfalso. apply (Hk v0). reflexivity. }
    destruct (key_value l) as [[k0 v0]|] eqn:E.
    + destruct (pystr_eqb k0 k) eqn:Ek.
      * apply pystr_eqb_spec in Ek. subst k0.
        unfold parse_step. rewrite E, lookup_set, pystr_eqb_refl. split.
        -- intros H. inversion H; subst. left. exists lines, l, [], v0.
           repeat split; auto; intros ? [].
        -- intros [(before & line & after & v & H & Hkv & -> & Hlater)|[_ Hno]].
           ++ apply snoc_split in H. destruct H as [(-> & -> & ->)|(after' & -> & ->)].
              ** congruence.
              ** exfalso. apply (Hlater l) with (v' := v0); [|exact E].
                 apply in_or_app. right. left. reflexivity.
           ++ exfalso. apply (Hno l) with (v' := v0); [|exact E].
              apply in_or_app. right. left. reflexivity.
      * apply pystr_eqb_neq in Ek.
        rewrite Hother by (intros v' Hv; congruence).
        rewrite IH. split.
        -- intros [(before & line & after & v & -> & Hkv & -> & Hlater)|[Hacc Hno]].
           ++ left. exists before, line, (after ++ [l]), v. repeat split; auto.
              ** rewrite <- app_assoc. reflexivity.
              ** intros line' Hin v' Hv. apply in_app_or in Hin. destruct Hin as [Hin|[<-|[]]].
                 --- exact (Hlater _ Hin _ Hv).
                 --- congruence.
           ++ right. split; [exact Hacc|]. intros line' Hin v' Hv.
              apply in_app_or in Hin. destruct Hin as [Hin|[<-|[]]].
              ** exact (Hno _ Hin _ Hv).
              ** congruence.
        -- intros [(before & line & after & v & H & Hkv & -> & Hlater)|[Hacc Hno]].
           ++ apply snoc_split in H. destruct H as [(-> & -> & ->)|(after' & -> & ->)].
              ** congruence.
              ** left. exists before, line, after', v. repeat split; auto.
                 intros line' Hin. apply Hlater. apply in_or_app. left. exact Hin.
           ++ right. split; [exact Hacc|]. intros line' Hin. apply Hno.
              apply in_or_app. left. exact Hin.
    + rewrite Hother by (intros v' Hv; discriminate).
      rewrite IH. split.
      * intros [(before & line & after & v & -> & Hkv & -> & Hlater)|[Hacc Hno]].
        -- left. exists before, line, (after ++ [l]), v. repeat split; auto.
           ++ rewrite <- app_assoc. reflexivity.
           ++ intros line' Hin v' Hv. apply in_app_or in Hin. destruct Hin as [Hin|[<-|[]]].
              ** exact (Hlater _ Hin _ Hv).
              ** congruence.
        -- right. split; [exact Hacc|]. intros line' Hin v' Hv.
           apply in_app_or in Hin. destruct Hin as [Hin|[<-|[]]].
           ++ exact (Hno _ Hin _ Hv).
           ++ congruence.
      * intros [(before & line & after & v & H & Hkv & -> & Hlater)|[Hacc Hno]].
        -- apply snoc_split in H. destruct H as [(-> & -> & ->)|(after' & -> & ->)].
           ++ congruence.
           ++ left. exists before, line, after', v. repeat split; auto.
              intros line' Hin. apply Hlater. apply in_or_app. left. exact Hin.
        -- right. split; [exact Hacc|]. intros line' Hin. apply Hno.
           apply in_or_app. left. exact Hin.
Qed.

Lemma lookup_fold_present (lines : list pystr) (acc : dict) (line k v : pystr) :
  In line lines -> key_value line = Some (k, v) ->
  exists x, Dict.lookup (fold_left parse_step lines acc) k = Some x.
Proof.
  induction lines as [|l lines IH] using rev_ind; intros Hin Hkv.
  - destruct Hin.
  - rewrite fold_left_app. simpl. unfold parse_step at 1.
    destruct (key_value l) as [[k0 v0]|] eqn:E.
    + rewrite lookup_set. destruct (pystr_eqb k0 k) eqn:Ek; [eauto|].
      apply IH; [|exact Hkv].
      apply in_app_or in Hin. destruct Hin as [Hin|[<-|[]]]; [exact Hin|].
      rewrite E in Hkv. inversion Hkv; subst.
      rewrite pystr_eqb_refl in Ek. discriminate.
    + apply IH; [|exact Hkv].
      apply in_app_or in Hin. destruct Hin as [Hin|[<-|[]]]; [exact Hin|congruence].
Qed.

Lemma fold_parse_step_entries (lines : list pystr) (acc : dict) :
  fold_left parse_step lines acc =
  fold_left (fun d kv => Dict.set d (fst kv) (PStr (snd kv)))
            (flat_map (fun line => match key_value line with
                                   | Some kv => [kv]
                                   | None => []
                                   end) lines) acc.
Proof.
  revert acc; induction lines as [|line lines IH]; intros acc; simpl; [reflexivity|].
  rewrite IH. unfold parse_step.
  destruct (key_value line) as [[k v]|]; reflexivity.
Qed.

Lemma kept_entries (lines : list pystr) :
  Forall2 (fun line kv => entry_of line (fst kv) (snd kv))
          (filter (Str.contains chr_colon) lines)
          (flat_map (fun line => match key_value line with
                                 | Some kv => [kv]
                                 | None => []
                                 end) lines).
Proof.
  induction lines as [|line lines IH]; simpl; [constructor|].
  destruct (Str.contains chr_colon line) eqn:Ec.
  - apply contains_In in Ec. destruct (key_value line) as [[k v]|] eqn:E.
    + simpl. constructor; [|exact IH]. apply entry_of_key_value. exact E.
    + apply key_value_None in E. contradiction.
  - assert (key_value line = None) as ->; [|exact IH].
    apply key_value_None. intros Hin. apply contains_In in Hin. congruence.
Qed.

(** C5. For every text, the key/value parser returns a mapping and never
    raises.  The lines it keeps are exactly those that are neither blank nor
    without a colon, in order; each kept line is turned into the entry whose
    key is the text before its first colon and whose value is the text after
    it (later colons included), both trimmed; and the mapping is these
    entries stored one after the other.  Hence a key [k] maps to [v] if and
    only if some kept line reads as [k: v] and no later kept line has the
    key [k], and the key of every kept line is in the mapping. *)
Theorem parse_key_value_text_entries (text : pystr) :
  exists kept entries parsed,
    TelemetryCollector.parse_key_value_text text = Ok parsed
    /\ kept = filter (Str.contains chr_colon) (TextIO.lines text)
    /\ (forall line, In line kept <-> In line (TextIO.lines text) /\ ~ ignored line)
    /\ Forall2 (fun line kv => entry_of line (fst kv) (snd kv)) kept entries
    /\ parsed = fold_left (fun d kv => Dict.set d (fst kv) (PStr (snd kv))) entries []
    /\ (forall k x,
          Dict.lookup parsed k = Some x <->
          exists before line after v,
            TextIO.lines text = before ++ line :: after
            /\ ~ ignored line /\ entry_of line k v /\ x = PStr v
            /\ forall line', In line' after -> ~ ignored line' ->
                             forall v', ~ entry_of line' k v')
    /\ (forall line,
          In line (TextIO.lines text) -> ~ ignored line ->
          exists k v, entry_of line k v /\ exists x, Dict.lookup parsed k = Some x).
Proof.
  unfold TelemetryCollector.parse_key_value_text.
  rewrite parse_lines_fold.
  exists (filter (Str.contains chr_colon) (TextIO.lines text)).
  eexists. eexists. split; [reflexivity|]. split; [reflexivity|]. split.
  { intros line. rewrite filter_In, contains_In, not_ignored_iff. tauto. }
  split; [apply kept_entries|]. split; [apply fold_parse_step_entries|]. split.
  - intros k x. rewrite lookup_fold_parse_step. split.
    + intros [(before & line & after & v & H & Hkv & -> & Hlater)|[H _]]; [|discriminate].
      exists before, line, after, v. repeat split; auto.
      * apply not_ignored_iff. apply entry_of_key_value in Hkv.
        destruct Hkv as (a & b & -> & _). apply in_or_app. right. left. reflexivity.
      * apply entry_of_key_value. exact Hkv.
      * intros line' Hin _ v' Hv. apply entry_of_key_value in Hv.
        exact (Hlater _ Hin _ Hv).
    + intros (before & line & after & v & H & _ & Hkv & -> & Hlater).
      left. exists before, line, after, v. repeat split; auto.
      * apply entry_of_key_value. exact Hkv.
      * intros line' Hin v' Hv. apply entry_of_key_value in Hv.
        apply (Hlater _ Hin) with (v' := v'); [|exact Hv].
        apply not_ignored_iff. destruct Hv as (a & b & -> & _).
        apply in_or_app. right. left. reflexivity.
  - intros line Hin Hni. apply not_ignored_iff in Hni.
    destruct (key_value line) as [[k v]|] eqn:E.
    + exists k, v. split; [apply entry_of_key_value; exact E|].
      eapply lookup_fold_present; eassumption.
    + apply key_value_None in E. contradiction.
Qed.

(** A memory-information text: a blank line and a line without a colon are
    passed over, the colons of a value are kept, and of two lines with the
    same key the later one's value stands. *)
Example parse_key_value_text_sample :
  TelemetryCollector.parse_key_value_text
    (u "MemTotal:       16 kB" ++ [chr_newline] ++ [chr_newline]
     ++ u "no colon here" ++ [chr_newline]
     ++ u "Stamp: 12:30:05" ++ [chr_return; chr_newline]
     ++ u "MemTotal: 32 kB")
  = Ok [ (u "MemTotal", PStr (u "32 kB")); (u "Stamp", PStr (u "12:30:05")) ].
Proof. vm_compute. reflexivity. Qed.

(** ** Extraction of the answer *)

Lemma content_of_text (choice : pyval) (s : pystr) :
  content_of choice = Some s <-> text_of choice s.
Proof.
  unfold content_of, text_of. split.
  - destruct choice as [| | | | |l|c]; try discriminate.
    destruct (Dict.lookup c (u "message")) as [[| | | | |l|m]|] eqn:Em; try discriminate.
    destruct (Dict.lookup m (u "content")) as [[| | | |s'|l|d]|] eqn:Ec; try discriminate.
    intros H; inversion H; subst. exists c, m. auto.
  - intros (c & m & -> & Hm & Hc). rewrite Hm, Hc. reflexivity.
Qed.

Lemma content_of_none (choice : pyval) :
  content_of choice = None <-> contentless choice.
Proof.
  unfold content_of, contentless, missing_or_not, is_mapping, is_text. split.
  - destruct choice as [| | | | |l|c];
      try (intros _; left; intros [d Hd]; discriminate).
    intros H. right. exists c. split; [reflexivity|].
    destruct (Dict.lookup c (u "message")) as [[| | | | |l|m]|] eqn:Em;
      try (left; try exact I; intros [d Hd]; discriminate).
    right. exists m. split; [reflexivity|].
    destruct (Dict.lookup m (u "content")) as [[| | | |s'|l|d]|] eqn:Ec;
      try exact I; intros [s Hs]; discriminate.
  - intros [Hn|(c & -> & [Hm|(m & Hm & Hc)])].
    + destruct choice; try reflexivity. exfalso. apply Hn. eexists; reflexivity.
    + destruct (Dict.lookup c (u "message")) as [[| | | | |l|m]|]; try reflexivity.
      exfalso. apply Hm. eexists; reflexivity.
    + rewrite Hm.
      destruct (Dict.lookup m (u "content")) as [[| | | |s'|l|d]|]; try reflexivity.
      exfalso. apply Hc. eexists; reflexivity.
Qed.

Lemma first_content_cons (choice : pyval) (rest : list pyval) :
  ChatGPTTelemetryAnalyzer.first_content (choice :: rest) =
  match content_of choice with
  | Some s => Str.strip s
  | None => ChatGPTTelemetryAnalyzer.first_content rest
  end.
Proof.
  simpl. unfold content_of, Dict.get.
  destruct choice as [| | | | |l|c]; try reflexivity.
  destruct (Dict.lookup c (u "message")) as [[| | | | |l|m]|]; try reflexivity.
  destruct (Dict.lookup m (u "content")) as [[| | | |s'|l|d]|]; reflexivity.
Qed.

Lemma first_content_contentless (choices : list pyval) :
  Forall contentless choices -> ChatGPTTelemetryAnalyzer.first_content choices = [].
Proof.
  induction 1 as [|choice rest Hc _ IH]; [reflexivity|].
  rewrite first_content_cons. apply content_of_none in Hc. rewrite Hc. exact IH.
Qed.

Lemma first_content_skip (before : list pyval) (rest : list pyval) :
  Forall contentless before ->
  ChatGPTTelemetryAnalyzer.first_content (before ++ rest) =
  ChatGPTTelemetryAnalyzer.first_content rest.
Proof.
  induction 1 as [|choice before Hc _ IH]; [reflexivity|].
  rewrite <- app_comm_cons, first_content_cons.
  apply content_of_none in Hc. rewrite Hc. exact IH.
Qed.

(** The choices split at the first one that carries a text, if any. *)
Lemma first_text_split (choices : list pyval) :
  Forall contentless choices
  \/ exists before choice after s,
       choices = before ++ choice :: after
       /\ Forall contentless before /\ text_of choice s.
Proof.
  induction choices as [|choice rest IH].
  - left. constructor.
  - destruct (content_of choice) as [s|] eqn:E.
    + right. exists [], choice, rest, s. repeat split; [constructor|].
      apply content_of_text. exact E.
    + apply content_of_none in E. destruct IH as [IH|(before & c & after & s & -> & Hb & Ht)].
      * left. constructor; assumption.
      * right. exists (choice :: before), c, after, s. repeat split; auto.
Qed.

Lemma strings_contentless (l : list pystr) :
  Forall contentless (map PStr l).
Proof.
  apply Forall_forall. intros x Hx. apply in_map_iff in Hx.
  destruct Hx as (s & <- & _). left. intros [d Hd]. discriminate.
Qed.

Lemma iterable_not_list (v : pyval) (items : list pyval) :
  ~ is_list v -> ChatGPTTelemetryAnalyzer.iterable v = Some items ->
  Forall contentless items.
Proof.
  intros Hn. destruct v as [| | | |s|l|d]; simpl; try discriminate.
  - intros H; inversion H; subst. rewrite <- (map_map (fun c => [c]) PStr).
    apply strings_contentless.
  - exfalso. apply Hn. eexists; reflexivity.
  - intros H; inversion H; subst. rewrite <- (map_map fst PStr).
    apply strings_contentless.
Qed.

Lemma extract_degenerate (response : dict) :
  degenerate response ->
  ChatGPTTelemetryAnalyzer._extract_message (PDict response) = Ok [].
Proof.
  unfold ChatGPTTelemetryAnalyzer._extract_message, Dict.get.
  intros [H|[(v & H & Hn)|(choices & H & Hc)]]; rewrite H.
  - reflexivity.
  - destruct (ChatGPTTelemetryAnalyzer.iterable v) as [items|] eqn:E; [|reflexivity].
    rewrite (first_content_contentless (iterable_not_list Hn E)). reflexivity.
  - simpl. rewrite (first_content_contentless Hc). reflexivity.
Qed.

(** For every decoded response that is an object and is degenerate (its
    [choices] is absent, or is not a list, or is a list, possibly empty, of
    choices each of which is not an object, or has a missing or wrongly
    typed [message], or a missing or wrongly typed [content]), extraction
    returns the empty string and raises nothing. *)
Theorem extract_message_degenerate_empty (response : dict) :
  degenerate response ->
  ChatGPTTelemetryAnalyzer._extract_message (PDict response) = Ok [].
Proof.
  intros [Habsent|[(v & Hv & Hnot_list)|(choices & Hchoices & Hnone)]];
    unfold ChatGPTTelemetryAnalyzer._extract_message, Dict.get.
  - (* no [choices]: [get] gives [None], which is not iterable *)
    rewrite Habsent. reflexivity.
  - (* [choices] is not a list: not iterable, or iterated as strings *)
    rewrite Hv.
    destruct (ChatGPTTelemetryAnalyzer.iterable v) as [items|] eqn:E; [|reflexivity].
    f_equal. apply first_content_contentless. exact (iterable_not_list Hnot_list E).
  - (* a list of choices none of which carries a text *)
    rewrite Hchoices. simpl. f_equal. apply first_content_contentless. exact Hnone.
Qed.

(** The responses [{"choices": []}] and [{}] are degenerate and yield [""]. *)
Lemma extract_message_degenerate_examples :
  (degenerate [ (u "choices", PList []) ]
   /\ ChatGPTTelemetryAnalyzer._extract_message (PDict [ (u "choices", PList []) ]) = Ok [])
  /\ (degenerate []
      /\ ChatGPTTelemetryAnalyzer._extract_message (PDict []) = Ok []).
Proof.
  assert (degenerate [ (u "choices", PList []) ]) as H1.
  { right. right. exists []. split; [reflexivity | constructor]. }
  assert (degenerate []) as H2.
  { left. reflexivity. }
  split; split.
  - exact H1.
  - exact (extract_message_degenerate_empty H1).
  - exact H2.
  - exact (extract_message_degenerate_empty H2).
Defined.

(** C7 at decoded responses that are not objects.  The bodies [[]],
    [null], ["ok"] and [0] are valid JSON and degenerate: none has a list
    of choices.  Extraction guards every inner lookup with a type test and
    leaves the lookup of [choices] on the response itself unguarded, so it
    raises [AttributeError] where the empty string was to be returned; and
    [analyze] raises it to its caller. *)
Theorem extract_message_raises_on_non_objects :
  ChatGPTTelemetryAnalyzer._extract_message (PList []) = Raise AttributeError
  /\ ChatGPTTelemetryAnalyzer._extract_message PNone = Raise AttributeError
  /\ ChatGPTTelemetryAnalyzer._extract_message (PStr (u "ok")) = Raise AttributeError
  /\ ChatGPTTelemetryAnalyzer._extract_message (PInt 0) = Raise AttributeError
  /\ ChatGPTTelemetryAnalyzer.analyze sample_floatstr sample_json_loads
       sample_analyzer sample_snapshot (always (HTTPResponse (latin_bytes (u "[]")))) []
     = (Raise AttributeError,
        [request_of sample_floatstr sample_analyzer sample_snapshot]).
Proof.
  repeat (split; [reflexivity|]). vm_compute. reflexivity.
Qed.

(** C2, as stated, fails: with a first choice whose content is the empty
    string and a second whose content is ["hi"], the code returns [""] where
    the first non-empty content is ["hi"]; and a decoded response that is not
    an object makes extraction raise. *)
Lemma extract_message_not_first_nonempty :
  ChatGPTTelemetryAnalyzer._extract_message (PDict response_empty_then_text) = Ok (u "")
  /\ spec_extract_message response_empty_then_text = u "hi"
  /\ ChatGPTTelemetryAnalyzer._extract_message (PList []) = Raise AttributeError.
Proof. split; [vm_compute; reflexivity | split; vm_compute; reflexivity]. Qed.

(** C2, amended. For every decoded response that is an object, the
    extracted analysis is the trimmed content of the first choice, in list
    order, whose message content is a string (empty or not), every earlier
    choice yielding no text; it is the empty string when the response is
    degenerate.  The response [{"choices":[{"message":{"content":" hello "}}]}]
    yields ["hello"]. *)
Theorem extract_message_first_text (response : dict) :
  ((exists choices before choice after s,
       Dict.lookup response (u "choices") = Some (PList choices)
       /\ choices = before ++ choice :: after
       /\ Forall contentless before
       /\ text_of choice s
       /\ ChatGPTTelemetryAnalyzer._extract_message (PDict response) = Ok (Str.strip s))
   \/ (degenerate response
       /\ ChatGPTTelemetryAnalyzer._extract_message (PDict response) = Ok []))
  /\ ChatGPTTelemetryAnalyzer._extract_message (PDict response_hello) = Ok (u "hello").
Proof.
  split; [|reflexivity].
  destruct (Dict.lookup response (u "choices")) as [v|] eqn:E.
  - destruct v as [| | | | |choices|];
      try (right; split; [|apply extract_degenerate];
           right; left; eexists; (split; [exact E | intros [l Hl]; discriminate])).
    destruct (first_text_split choices) as [Hc|(before & choice & after & s & -> & Hb & Ht)].
    + right. split; [|apply extract_degenerate]; right; right; eauto.
    + left. exists (before ++ choice :: after), before, choice, after, s.
      repeat split; auto.
      unfold ChatGPTTelemetryAnalyzer._extract_message, Dict.get. rewrite E. simpl.
      rewrite (first_content_skip _ Hb), first_content_cons.
      apply content_of_text in Ht. rewrite Ht. reflexivity.
  - right. split; [|apply extract_degenerate]; left; exact E.
Qed.

(** ** The collector *)

Lemma parse_key_value_file_returns (h : host) (path : pystr) :
  readable h ->
  path = TelemetryCollector.meminfo_path \/ path = TelemetryCollector.status_path h ->
  exists parsed, TelemetryCollector._parse_key_value_file h path = Ok parsed.
Proof.
  intros Hr Hpath. unfold TelemetryCollector._parse_key_value_file.
  destruct (files h path) as [| |content] eqn:E; eauto.
  destruct (Utf8.decode content) as [text|] eqn:Ed.
  - unfold TelemetryCollector.parse_key_value_text. rewrite parse_lines_fold. eauto.
  - exfalso. exact (Hr _ _ Hpath E Ed).
Qed.

Lemma memory_info_returns (h : host) :
  readable h -> exists info, TelemetryCollector._memory_info h = Ok info.
Proof.
  intros Hr. unfold TelemetryCollector._memory_info.
  destruct (os_path_exists h TelemetryCollector.meminfo_path); [|eauto].
  destruct (parse_key_value_file_returns Hr (or_introl eq_refl)) as [parsed ->].
  simpl. eauto.
Qed.

Lemma process_info_returns (h : host) :
  readable h -> exists info, TelemetryCollector._process_info h = Ok info.
Proof.
  intros Hr. unfold TelemetryCollector._process_info.
  destruct (os_path_exists h (TelemetryCollector.status_path h)); [|eauto].
  destruct (parse_key_value_file_returns Hr (or_intror eq_refl)) as [parsed ->].
  simpl. eauto.
Qed.

(** With the load average obtained (or the facility absent) and the files
    decodable, [collect] returns a snapshot with the five sections, in the
    order of the source. *)
Lemma collect_returns (h : host) :
  readable h -> os_getloadavg h <> LoadAvgUnobtainable ->
  exists load_average memory process,
    TelemetryCollector._load_average h = Ok load_average
    /\ TelemetryCollector.collect h =
       Ok {| data :=
               [ (u "timestamp", PFloat (time_time h));
                 (u "platform", PDict (TelemetryCollector._platform_info h));
                 (u "load_average", load_average);
                 (u "memory", PDict memory);
                 (u "process", PDict process) ] |}.
Proof.
  intros Hr Hl. unfold TelemetryCollector.collect.
  destruct (memory_info_returns Hr) as [memory ->].
  destruct (process_info_returns Hr) as [process ->].
  unfold TelemetryCollector._load_average.
  destruct (os_getloadavg h) as [|one five fifteen|]; [| |congruence]; simpl; eauto.
Qed.

(** C1, as stated, fails: on a host without the load-average facility the
    snapshot has the key [load_average], with the value [None]. *)
Lemma collect_load_average_key_present :
  os_getloadavg bare_host = NoLoadAvg
  /\ exists snapshot,
       TelemetryCollector.collect bare_host = Ok snapshot
       /\ Dict.lookup (data snapshot) (u "load_average") = Some PNone
       /\ In (u "load_average") (Dict.keys (data snapshot)).
Proof.
  split; [reflexivity|]. eexists. split; [vm_compute; reflexivity|].
  split; [reflexivity|]. simpl. auto.
Qed.

(** C1, amended. Whenever [collect] returns a snapshot on a host without
    the load-average facility, the key [load_average] is present in it with
    the value [None]; on a host whose facility returns three figures the
    key maps to the three-key mapping [1min], [5min], [15min] of these
    floats.  On every host whose two files decode, [collect] does return
    such a snapshot in both cases. *)
Theorem collect_load_average (h : host) :
  readable h ->
  (forall snapshot,
      TelemetryCollector.collect h = Ok snapshot ->
      match os_getloadavg h with
      | NoLoadAvg => Dict.lookup (data snapshot) (u "load_average") = Some PNone
      | LoadAvg one five fifteen =>
          Dict.lookup (data snapshot) (u "load_average") =
          Some (PDict [ (u "1min", PFloat one); (u "5min", PFloat five);
                        (u "15min", PFloat fifteen) ])
      | LoadAvgUnobtainable => False
      end)
  /\ (os_getloadavg h = NoLoadAvg ->
      exists snapshot,
        TelemetryCollector.collect h = Ok snapshot
        /\ Dict.lookup (data snapshot) (u "load_average") = Some PNone)
  /\ (forall one five fifteen,
         os_getloadavg h = LoadAvg one five fifteen ->
         exists snapshot,
           TelemetryCollector.collect h = Ok snapshot
           /\ Dict.lookup (data snapshot) (u "load_average") =
              Some (PDict [ (u "1min", PFloat one); (u "5min", PFloat five);
                            (u "15min", PFloat fifteen) ])).
Proof.
  intros Hr. split; [|split].
  - intros snapshot. unfold TelemetryCollector.collect, TelemetryCollector._load_average.
    destruct (os_getloadavg h) as [|one five fifteen|]; simpl; [| |discriminate];
      destruct (TelemetryCollector._memory_info h); simpl; try discriminate;
      destruct (TelemetryCollector._process_info h); simpl; try discriminate;
      intros H; inversion H; subst; reflexivity.
  - intros E.
    destruct (@collect_returns h Hr) as (la & memory & process & Hla & ->);
      [congruence|].
    unfold TelemetryCollector._load_average in Hla. rewrite E in Hla.
    inversion Hla; subst. eexists. split; reflexivity.
  - intros one five fifteen E.
    destruct (@collect_returns h Hr) as (la & memory & process & Hla & ->);
      [congruence|].
    unfold TelemetryCollector._load_average in Hla. rewrite E in Hla.
    inversion Hla; subst. eexists. split; reflexivity.
Qed.

Lemma readable_bare_host : readable bare_host.
Proof. intros path content _ H. discriminate. Defined.

Lemma readable_linux_host : readable linux_host.
Proof.
  intros path content _ H. unfold linux_host, with_file in H. simpl in H.
  destruct (pystr_eqb path (u "/proc/4242/status")).
  - inversion H; subst. vm_compute. discriminate.
  - destruct (pystr_eqb path (u "/proc/meminfo")).
    + inversion H; subst. vm_compute. discriminate.
    + discriminate.
Defined.

(** The amended C1 on a host without the facility and on one with it. *)
Lemma collect_load_average_examples :
  (readable bare_host
   /\ exists snapshot,
        TelemetryCollector.collect bare_host = Ok snapshot
        /\ Dict.lookup (data snapshot) (u "load_average") = Some PNone)
  /\ (readable linux_host
      /\ exists snapshot,
           TelemetryCollector.collect linux_host = Ok snapshot
           /\ Dict.lookup (data snapshot) (u "load_average") =
              Some (PDict [ (u "1min", PFloat 0.25); (u "5min", PFloat 0.5);
                            (u "15min", PFloat 0.75) ])).
Proof.
  split; split.
  - exact readable_bare_host.
  - exact (proj1 (proj2 (collect_load_average readable_bare_host)) eq_refl).
  - exact readable_linux_host.
  - exact (proj2 (proj2 (collect_load_average readable_linux_host)) _ _ _ eq_refl).
Defined.

(** C3 at two hosts: when [os.getloadavg] exists and fails, [collect]
    raises [OSError]; when the status file is not UTF-8, [collect] raises
    [UnicodeDecodeError].  Neither failure is absorbed. *)
Theorem collect_raises :
  TelemetryCollector.collect host_loadavg_unobtainable = Raise OSError
  /\ TelemetryCollector.collect host_status_not_utf8 = Raise UnicodeDecodeError.
Proof. split; vm_compute; reflexivity. Qed.

(** ** Values *)

(** Induction on values, with the hypothesis available for every element
    of a list and every value of a dictionary. *)
Lemma pyval_nested_ind (P : pyval -> Prop) :
  P PNone ->
  (forall b, P (PBool b)) ->
  (forall z, P (PInt z)) ->
  (forall f, P (PFloat f)) ->
  (forall s, P (PStr s)) ->
  (forall l, Forall P l -> P (PList l)) ->
  (forall d, Forall (fun kv => P (snd kv)) d -> P (PDict d)) ->
  forall v, P v.
Proof.
  intros HNone HBool HInt HFloat HStr HList HDict.
  fix IH 1. intros [| b | z | f | s | l | d].
  - exact HNone.
  - apply HBool.
  - apply HInt.
  - apply HFloat.
  - apply HStr.
  - apply HList. induction l as [|x l IHl]; constructor; [apply IH | exact IHl].
  - apply HDict. induction d as [|[k x] d IHd]; constructor; [apply IH | exact IHd].
Qed.

(** ** The encoder writes ASCII *)

Lemma ascii_onlyb_spec (s : pystr) : ascii_onlyb s = true -> ascii_only s.
Proof.
  unfold ascii_onlyb, ascii_only. rewrite forallb_forall, Forall_forall.
  intros H c Hc. apply N.ltb_lt. exact (H c Hc).
Qed.

Lemma ascii_only_app (a b : pystr) : ascii_only a -> ascii_only b -> ascii_only (a ++ b).
Proof. intros Ha Hb. apply Forall_app. split; assumption. Qed.

Lemma ascii_only_cons (c : pychar) (s : pystr) : c < 128 -> ascii_only s -> ascii_only (c :: s).
Proof. intros Hc Hs. constructor; assumption. Qed.

Lemma ascii_only_uint (d : Decimal.uint) :
  ascii_only (u (NilEmpty.string_of_uint d)).
Proof.
  induction d; simpl; try (constructor; [reflexivity | exact IHd]). constructor.
Qed.

Lemma ascii_only_of_int (z : Z) : ascii_only (Str.of_int z).
Proof.
  unfold Str.of_int, NilZero.string_of_int, NilZero.string_of_uint.
  destruct (Z.to_int z) as [d|d].
  - destruct d; try apply ascii_only_uint. apply ascii_onlyb_spec. reflexivity.
  - change (ascii_only (45 :: u (match d with
                                  | Decimal.Nil => "0"%string
                                  | _ => NilEmpty.string_of_uint d
                                  end))).
    constructor; [reflexivity|].
    destruct d; try apply ascii_only_uint. apply ascii_onlyb_spec. reflexivity.
Qed.

Lemma hex_digit_ascii (n : N) : n < 16 -> Json.hex_digit n < 128.
Proof.
  intros H. unfold Json.hex_digit. destruct (n <? 10); lia.
Qed.

Lemma unicode_escape_ascii (n : N) : ascii_only (Json.unicode_escape n).
Proof.
  unfold Json.unicode_escape, Json.hex4, chr_backslash.
  repeat (apply ascii_only_cons;
          [first [reflexivity | apply hex_digit_ascii; apply N.mod_upper_bound; discriminate]|]).
  constructor.
Qed.

Lemma escape_char_ascii (c : pychar) : ascii_only (Json.escape_char c).
Proof.
  unfold Json.escape_char.
  repeat match goal with
         | |- ascii_only (if ?b then _ else _) => destruct b eqn:?
         end;
    try (apply ascii_onlyb_spec; reflexivity);
    try apply unicode_escape_ascii;
    try (apply ascii_only_app; apply unicode_escape_ascii).
  constructor; [|constructor].
  match goal with
  | H : (_ && _)%bool = true |- _ =>
      apply andb_true_iff in H; destruct H as [_ H]; apply N.leb_le in H; lia
  end.
Qed.

Lemma encode_str_ascii (s : pystr) : ascii_only (Json.encode_str s).
Proof.
  unfold Json.encode_str. apply ascii_only_cons; [reflexivity|].
  apply ascii_only_app; [|apply ascii_onlyb_spec; reflexivity].
  induction s as [|c s IH]; simpl; [constructor|].
  apply ascii_only_app; [apply escape_char_ascii | exact IH].
Qed.

Lemma join_ascii (sep : pystr) (parts : list pystr) :
  ascii_only sep -> Forall ascii_only parts -> ascii_only (Str.join sep parts).
Proof.
  intros Hsep. induction 1 as [|p rest Hp Hrest IH]; simpl; [constructor|].
  destruct rest as [|q rest]; [exact Hp|].
  apply ascii_only_app; [exact Hp|]. apply ascii_only_app; [exact Hsep | exact IH].
Qed.

Lemma insert_item_perm (V : Type) (kv : pystr * V) (l : list (pystr * V)) :
  Permutation (Json.insert_item kv l) (kv :: l).
Proof.
  induction l as [|kv' l IH]; simpl; [reflexivity|].
  destruct (Str.leb (fst kv) (fst kv')); [reflexivity|].
  rewrite IH. apply perm_swap.
Qed.

Lemma sort_items_perm (V : Type) (l : list (pystr * V)) :
  Permutation (Json.sort_items l) l.
Proof.
  induction l as [|kv l IH]; simpl; [reflexivity|].
  rewrite insert_item_perm. constructor. exact IH.
Qed.

Lemma order_items_perm (V : Type) (sort_keys : bool) (l : list (pystr * V)) :
  Permutation (Json.order_items sort_keys l) l.
Proof.
  unfold Json.order_items. destruct sort_keys; [apply sort_items_perm | reflexivity].
Qed.

Section EncoderFacts.

Variable floatstr : float -> pystr.
Variable indent : option nat.
Variable sort_keys : bool.

Let encode := Json.encode floatstr indent sort_keys.

Lemma encode_list_eq (level : nat) (l : list pyval) :
  encode level (PList l) =
  Json.render_container indent 91 93 level (map (encode (S level)) l).
Proof.
  unfold encode. simpl. f_equal;
    induction l as [|x l IH]; simpl; congruence.
Qed.

Lemma encode_dict_eq (level : nat) (d : dict) :
  encode level (PDict d) =
  Json.render_container indent 123 125 level
    (map Json.render_item
       (Json.order_items sort_keys
          (map (fun kv => (fst kv, encode (S level) (snd kv))) d))).
Proof.
  unfold encode. simpl. do 3 f_equal;
    induction d as [|[k x] d IH]; simpl; congruence.
Qed.

Lemma newline_indent_ascii (level : nat) :
  ascii_only (Json.newline_indent indent level).
Proof.
  unfold Json.newline_indent. destruct indent as [n|]; [|constructor].
  constructor; [reflexivity|]. apply Forall_forall. intros c Hc.
  apply repeat_spec in Hc. subst. reflexivity.
Qed.

Lemma render_container_ascii (open close : pychar) (level : nat) (items : list pystr) :
  open < 128 -> close < 128 -> Forall ascii_only items ->
  ascii_only (Json.render_container indent open close level items).
Proof.
  intros Ho Hc Hi. unfold Json.render_container.
  destruct items as [|i items]; [repeat constructor; assumption|].
  apply ascii_only_cons; [exact Ho|].
  apply ascii_only_app; [apply newline_indent_ascii|].
  apply ascii_only_app.
  - apply join_ascii; [|exact Hi].
    apply ascii_only_app; [|apply newline_indent_ascii].
    unfold Json.item_separator. destruct indent; apply ascii_onlyb_spec; reflexivity.
  - apply ascii_only_app; [apply newline_indent_ascii|].
    repeat constructor; assumption.
Qed.

Hypothesis floatstr_ascii : forall f, ascii_only (floatstr f).

Lemma encode_ascii (v : pyval) : forall level, ascii_only (encode level v).
Proof.
  induction v as [| b | z | f | s | l IH | d IH] using pyval_nested_ind; intros level.
  - apply ascii_onlyb_spec. reflexivity.
  - destruct b; apply ascii_onlyb_spec; reflexivity.
  - apply ascii_only_of_int.
  - apply floatstr_ascii.
  - apply encode_str_ascii.
  - rewrite encode_list_eq. apply render_container_ascii; [reflexivity | reflexivity |].
    apply Forall_forall. intros t Ht. apply in_map_iff in Ht.
    destruct Ht as (x & <- & Hx). rewrite Forall_forall in IH. apply IH. exact Hx.
  - rewrite encode_dict_eq. apply render_container_ascii; [reflexivity | reflexivity |].
    apply Forall_forall. intros t Ht. apply in_map_iff in Ht.
    destruct Ht as ([k e] & <- & Hke).
    apply (Permutation_in _ (order_items_perm sort_keys _)) in Hke.
    apply in_map_iff in Hke. destruct Hke as ([k' x] & Heq & Hx).
    inversion Heq; subst. unfold Json.render_item. cbn [fst snd].
    apply ascii_only_app; [apply encode_str_ascii|].
    apply ascii_only_app; [apply ascii_onlyb_spec; reflexivity|].
    rewrite Forall_forall in IH. apply (IH _ Hx).
Qed.

Lemma dumps_ascii (v : pyval) : ascii_only (Json.dumps floatstr indent sort_keys v).
Proof. apply encode_ascii. Qed.

End EncoderFacts.

Lemma utf8_encode_ascii (s : pystr) :
  ascii_only s -> Utf8.encode s = Some (latin_bytes s).
Proof.
  induction 1 as [|c s Hc _ IH]; simpl; [reflexivity|].
  rewrite IH. unfold Utf8.encode_char.
  apply N.ltb_lt in Hc. rewrite Hc. reflexivity.
Qed.

(** ** The analysis client *)

Section AnalyzeFacts.

Variable floatstr : float -> pystr.
Variable json_loads : pystr -> option pyval.
Hypothesis floatstr_ascii : forall f, ascii_only (floatstr f).

Lemma build_request_ok (self : ChatGPTTelemetryAnalyzer.t) (snapshot : TelemetrySnapshot) :
  ChatGPTTelemetryAnalyzer.build_request floatstr self snapshot =
  Ok (request_of floatstr self snapshot).
Proof.
  unfold ChatGPTTelemetryAnalyzer.build_request.
  rewrite (utf8_encode_ascii (@dumps_ascii floatstr None false floatstr_ascii _)).
  reflexivity.
Qed.

(** [analyze] issues one request, whatever the outcome. *)
Lemma analyze_log (self : ChatGPTTelemetryAnalyzer.t) (snapshot : TelemetrySnapshot)
      (net : network) (log : list Request) :
  snd (ChatGPTTelemetryAnalyzer.analyze floatstr json_loads self snapshot net log) =
  log ++ [request_of floatstr self snapshot].
Proof.
  unfold ChatGPTTelemetryAnalyzer.analyze. rewrite build_request_ok.
  unfold ChatGPTTelemetryAnalyzer.exchange, urlopen.
  destruct (net _ _ _) as [raw|code raw|code e|reason|e]; try reflexivity.
  destruct (Utf8.decode raw); reflexivity.
Qed.

Lemma analyze_outcome (self : ChatGPTTelemetryAnalyzer.t) (snapshot : TelemetrySnapshot)
      (net : network) (log : list Request) :
  ChatGPTTelemetryAnalyzer.analyze floatstr json_loads self snapshot net log =
  (match net (List.length log) (request_of floatstr self snapshot)
             (ChatGPTTelemetryAnalyzer.request_timeout self) with
   | HTTPResponse raw =>
       match Utf8.decode raw with
       | Some body =>
           match json_loads body with
           | Some parsed =>
               analysis <- ChatGPTTelemetryAnalyzer._extract_message parsed ;;
               Ok [ (u "analysis", PStr analysis); (u "raw_response", parsed) ]
           | None => Raise JSONDecodeError
           end
       | None => Raise UnicodeDecodeError
       end
   | HTTPError code raw =>
       Raise (RuntimeError
                (u "ChatGPT API returned HTTP " ++ Str.of_int code ++ u ": "
                 ++ Utf8.decode_ignore raw))
   | HTTPErrorUnread _ e => Raise e
   | URLError reason =>
       Raise (RuntimeError (u "Failed to reach ChatGPT API: " ++ URLError_str reason))
   | Failure e => Raise e
   end,
   log ++ [request_of floatstr self snapshot]).
Proof.
  unfold ChatGPTTelemetryAnalyzer.analyze. rewrite build_request_ok.
  unfold ChatGPTTelemetryAnalyzer.exchange, urlopen.
  destruct (net _ _ _) as [raw|code raw|code e|reason|e]; try reflexivity.
  destruct (Utf8.decode raw); reflexivity.
Qed.


End AnalyzeFacts.

Lemma sample_floatstr_ascii (f : float) : ascii_only (sample_floatstr f).
Proof.
  unfold sample_floatstr.
  repeat match goal with
         | |- ascii_only (if ?b then _ else _) => destruct b
         end; apply ascii_onlyb_spec; reflexivity.
Qed.



(** C6, as stated, fails: a response with status 500 whose body cannot be
    read (the connection times out during [error.read()], which the handler
    of [HTTPError] calls) makes [analyze] raise the [TimeoutError] of the
    read, not a [RuntimeError] that carries the status code. *)
Lemma analyze_http_error_body_unread :
  ChatGPTTelemetryAnalyzer.analyze sample_floatstr sample_json_loads
    sample_analyzer sample_snapshot (always (HTTPErrorUnread 500 TimeoutError)) []
  = (Raise TimeoutError, [request_of sample_floatstr sample_analyzer sample_snapshot])
  /\ ~ (exists message,
          fst (ChatGPTTelemetryAnalyzer.analyze sample_floatstr sample_json_loads
                 sample_analyzer sample_snapshot
                 (always (HTTPErrorUnread 500 TimeoutError)) [])
          = Raise (RuntimeError message)).
Proof.
  rewrite (@analyze_outcome sample_floatstr sample_json_loads sample_floatstr_ascii).
  split; [reflexivity|]. intros [message H]. discriminate H.
Qed.

(** C6, amended. For every exchange in which [urlopen] raises [HTTPError]
    (a final status outside 2xx, [code]) and the body of the error is read
    ([raw]), [analyze] raises a [RuntimeError] whose message is
    [ChatGPT API returned HTTP <code>: <text>], the text being the body
    decoded as UTF-8 with undecodable bytes dropped; one request was
    issued. *)
Theorem analyze_http_error (floatstr : float -> pystr) (json_loads : pystr -> option pyval)
        (self : ChatGPTTelemetryAnalyzer.t) (snapshot : TelemetrySnapshot)
        (net : network) (log : list Request) (code : Z) (raw : list byte) :
  (forall f, ascii_only (floatstr f)) ->
  net (List.length log) (request_of floatstr self snapshot)
      (ChatGPTTelemetryAnalyzer.request_timeout self) = HTTPError code raw ->
  ChatGPTTelemetryAnalyzer.analyze floatstr json_loads self snapshot net log =
  (Raise (RuntimeError
            (u "ChatGPT API returned HTTP " ++ Str.of_int code ++ u ": "
             ++ Utf8.decode_ignore raw)),
   log ++ [request_of floatstr self snapshot]).
Proof.
  intros Hf Hnet. rewrite (@analyze_outcome floatstr json_loads Hf), Hnet. reflexivity.
Qed.

(** An HTTP 401 response with the body [{"error":"bad key"}]. *)
Lemma analyze_http_401 :
  (forall f, ascii_only (sample_floatstr f))
  /\ always (HTTPError 401 (latin_bytes (json_text "{'error':'bad key'}")))
            (List.length (@nil Request))
            (request_of sample_floatstr sample_analyzer sample_snapshot)
            (ChatGPTTelemetryAnalyzer.request_timeout sample_analyzer)
     = HTTPError 401 (latin_bytes (json_text "{'error':'bad key'}"))
  /\ ChatGPTTelemetryAnalyzer.analyze sample_floatstr sample_json_loads
       sample_analyzer sample_snapshot
       (always (HTTPError 401 (latin_bytes (json_text "{'error':'bad key'}")))) []
     = (Raise (RuntimeError
                 (u "ChatGPT API returned HTTP 401: " ++ json_text "{'error':'bad key'}")),
        [request_of sample_floatstr sample_analyzer sample_snapshot]).
Proof.
  split; [exact sample_floatstr_ascii|]. split; [reflexivity|].
  exact (@analyze_http_error sample_floatstr sample_json_loads sample_analyzer
           sample_snapshot
           (always (HTTPError 401 (latin_bytes (json_text "{'error':'bad key'}"))))
           [] 401 (latin_bytes (json_text "{'error':'bad key'}"))
           sample_floatstr_ascii eq_refl).
Defined.

(** C10, as stated, fails: a 200 response whose body is the single byte
    [0xFF] is not valid JSON, and [analyze] raises [UnicodeDecodeError], the
    decoding of the bytes failing before [json.loads] is reached, not the
    JSON-decoding error. *)
Lemma analyze_invalid_body_not_json_error :
  invalid_json sample_json_loads [xff]
  /\ fst (ChatGPTTelemetryAnalyzer.analyze sample_floatstr sample_json_loads
            sample_analyzer sample_snapshot (always (HTTPResponse [xff])) [])
     = Raise UnicodeDecodeError
  /\ fst (ChatGPTTelemetryAnalyzer.analyze sample_floatstr sample_json_loads
            sample_analyzer sample_snapshot (always (HTTPResponse [xff])) [])
     <> Raise JSONDecodeError.
Proof.
  rewrite (@analyze_outcome sample_floatstr sample_json_loads sample_floatstr_ascii).
  split; [exact I|]. split; [reflexivity | discriminate].
Qed.

(** C10, amended. For every exchange that returns a response (a 2xx status)
    whose body is not valid JSON, [analyze] raises a decoding error that no
    handler guards: [JSONDecodeError] when the body is UTF-8 text that
    [json.loads] refuses, [UnicodeDecodeError] when the body is not UTF-8.
    It is not a [RuntimeError] (the protocol and the transport error), and
    [analyze] returns no result, with an empty analysis or any other. *)
Theorem analyze_invalid_json (floatstr : float -> pystr) (json_loads : pystr -> option pyval)
        (self : ChatGPTTelemetryAnalyzer.t) (snapshot : TelemetrySnapshot)
        (net : network) (log : list Request) (raw : list byte) :
  (forall f, ascii_only (floatstr f)) ->
  net (List.length log) (request_of floatstr self snapshot)
      (ChatGPTTelemetryAnalyzer.request_timeout self) = HTTPResponse raw ->
  invalid_json json_loads raw ->
  fst (ChatGPTTelemetryAnalyzer.analyze floatstr json_loads self snapshot net log)
  = Raise (match Utf8.decode raw with
           | Some _ => JSONDecodeError
           | None => UnicodeDecodeError
           end)
  /\ (forall message,
         fst (ChatGPTTelemetryAnalyzer.analyze floatstr json_loads self snapshot net log)
         <> Raise (RuntimeError message))
  /\ (forall result,
         fst (ChatGPTTelemetryAnalyzer.analyze floatstr json_loads self snapshot net log)
         <> Ok result).
Proof.
  intros Hf Hnet Hj. rewrite (@analyze_outcome floatstr json_loads Hf), Hnet.
  unfold invalid_json in Hj. cbn [fst].
  destruct (Utf8.decode raw) as [body|].
  - rewrite Hj. repeat split; intros; discriminate.
  - repeat split; intros; discriminate.
Qed.

(** A 200 response whose body is an HTML page. *)
Lemma analyze_invalid_json_example :
  (forall f, ascii_only (sample_floatstr f))
  /\ invalid_json sample_json_loads (latin_bytes (u "<html>"))
  /\ Utf8.decode (latin_bytes (u "<html>")) = Some (u "<html>")
  /\ fst (ChatGPTTelemetryAnalyzer.analyze sample_floatstr sample_json_loads
            sample_analyzer sample_snapshot
            (always (HTTPResponse (latin_bytes (u "<html>")))) [])
     = Raise JSONDecodeError.
Proof.
  split; [exact sample_floatstr_ascii|]. split; [reflexivity|]. split; [reflexivity|].
  exact (proj1 (@analyze_invalid_json sample_floatstr sample_json_loads sample_analyzer
                  sample_snapshot (always (HTTPResponse (latin_bytes (u "<html>")))) []
                  (latin_bytes (u "<html>"))
                  sample_floatstr_ascii eq_refl eq_refl)).
Defined.

(** C4 at a server that accepts the connection and never answers:
    [urlopen] raises the [TimeoutError] of the read, which is not a
    [URLError]; [analyze] lets it through instead of raising its
    [RuntimeError]. *)
Theorem analyze_read_timeout :
  ChatGPTTelemetryAnalyzer.analyze sample_floatstr sample_json_loads
    sample_analyzer sample_snapshot (always (Failure TimeoutError)) []
  = (Raise TimeoutError, [request_of sample_floatstr sample_analyzer sample_snapshot]).
Proof.
  rewrite (@analyze_outcome sample_floatstr sample_json_loads sample_floatstr_ascii). reflexivity.
Qed.

(** When [urlopen] raises [URLError], [analyze] raises one [RuntimeError]
    that carries the text of the cause, and has issued exactly one request,
    also when a second attempt would have succeeded. *)
Theorem analyze_url_error (floatstr : float -> pystr) (json_loads : pystr -> option pyval)
        (self : ChatGPTTelemetryAnalyzer.t) (snapshot : TelemetrySnapshot)
        (net : network) (log : list Request) (reason : pystr) :
  (forall f, ascii_only (floatstr f)) ->
  net (List.length log) (request_of floatstr self snapshot)
      (ChatGPTTelemetryAnalyzer.request_timeout self) = URLError reason ->
  ChatGPTTelemetryAnalyzer.analyze floatstr json_loads self snapshot net log =
  (Raise (RuntimeError
            (u "Failed to reach ChatGPT API: <urlopen error " ++ reason ++ u ">")),
   log ++ [request_of floatstr self snapshot]).
Proof.
  intros Hf Hnet. rewrite (@analyze_outcome floatstr json_loads Hf), Hnet.
  unfold URLError_str. reflexivity.
Qed.

(** A refused connection, on a network whose second attempt would succeed. *)
Lemma analyze_url_error_example :
  (forall f, ascii_only (sample_floatstr f))
  /\ ChatGPTTelemetryAnalyzer.analyze sample_floatstr sample_json_loads
       sample_analyzer sample_snapshot
       (fails_once (URLError (u "[Errno 111] Connection refused"))) []
     = (Raise (RuntimeError
                 (u "Failed to reach ChatGPT API: <urlopen error [Errno 111] Connection refused>")),
        [request_of sample_floatstr sample_analyzer sample_snapshot]).
Proof.
  split; [exact sample_floatstr_ascii|].
  exact (@analyze_url_error sample_floatstr sample_json_loads sample_analyzer
           sample_snapshot (fails_once (URLError (u "[Errno 111] Connection refused")))
           [] (u "[Errno 111] Connection refused") sample_floatstr_ascii eq_refl).
Defined.

(** ** Order of keys *)

Lemma leb_total (a b : pystr) : Str.leb a b = true \/ Str.leb b a = true.
Proof.
  revert b; induction a as [|x a IH]; intros [|y b]; simpl; auto.
  destruct (N.lt_trichotomy x y) as [H|[H|H]].
  - left. apply N.ltb_lt in H. rewrite H. reflexivity.
  - subst. rewrite N.ltb_irrefl, N.eqb_refl. simpl. apply IH.
  - right. apply N.ltb_lt in H. rewrite H. reflexivity.
Qed.

Lemma leb_cons (x y : pychar) (a b : pystr) :
  Str.leb (x :: a) (y :: b) = true <-> x < y \/ (x = y /\ Str.leb a b = true).
Proof.
  simpl. rewrite orb_true_iff, andb_true_iff, N.ltb_lt, N.eqb_eq. tauto.
Qed.

Lemma leb_antisym (a b : pystr) :
  Str.leb a b = true -> Str.leb b a = true -> a = b.
Proof.
  revert b; induction a as [|x a IH]; intros [|y b]; try (simpl; congruence).
  rewrite !leb_cons. intros [H1|[-> H1]] [H2|[H2' H2]]; try lia.
  f_equal. apply IH; assumption.
Qed.

Lemma leb_trans (a b c : pystr) :
  Str.leb a b = true -> Str.leb b c = true -> Str.leb a c = true.
Proof.
  revert b c; induction a as [|x a IH]; intros [|y b] [|z c]; try (simpl; congruence).
  rewrite !leb_cons. intros [H1|[-> H1]] [H2|[-> H2]].
  - left. lia.
  - left. exact H1.
  - left. exact H2.
  - right. split; [reflexivity|]. exact (IH _ _ H1 H2).
Qed.

Lemma insert_item_sorted (V : Type) (kv : pystr * V) (l : list (pystr * V)) :
  StronglySorted key_le l -> StronglySorted key_le (Json.insert_item kv l).
Proof.
  induction 1 as [|kv' l Hs IH Hall]; simpl.
  - repeat constructor.
  - destruct (Str.leb (fst kv) (fst kv')) eqn:E.
    + constructor; [constructor; assumption|].
      constructor; [exact E|].
      rewrite Forall_forall in *. intros z Hz. unfold key_le in *.
      apply (leb_trans _ _ _ E). apply Hall. exact Hz.
    + constructor; [exact IH|].
      apply (Permutation_Forall (Permutation_sym (insert_item_perm kv l))).
      constructor; [|exact Hall].
      unfold key_le. destruct (leb_total (fst kv) (fst kv')); congruence.
Qed.

Lemma sort_items_sorted (V : Type) (l : list (pystr * V)) :
  StronglySorted key_le (Json.sort_items l).
Proof.
  induction l as [|kv l IH]; simpl; [constructor | apply insert_item_sorted; exact IH].
Qed.

(** Two sorted lists of items with the same items and distinct keys are equal. *)
Lemma sorted_items_unique (V : Type) (l1 l2 : list (pystr * V)) :
  StronglySorted key_le l1 -> StronglySorted key_le l2 ->
  Permutation l1 l2 -> NoDup (map fst l1) -> l1 = l2.
Proof.
  intros H1; revert l2; induction H1 as [|a l1 Hs1 IH Ha]; intros l2 H2 Hp Hn.
  - apply Permutation_nil in Hp. subst. reflexivity.
  - destruct H2 as [|b l2 Hs2 Hb].
    + apply Permutation_sym, Permutation_nil in Hp. discriminate.
    + assert (a = b) as ->.
      { assert (In a (b :: l2)) as Hin1 by (apply (Permutation_in _ Hp); left; reflexivity).
        assert (In b (a :: l1)) as Hin2
            by (apply (Permutation_in _ (Permutation_sym Hp)); left; reflexivity).
        destruct Hin1 as [->|Hin1]; [reflexivity|].
        destruct Hin2 as [->|Hin2]; [reflexivity|].
        rewrite Forall_forall in Ha, Hb.
        assert (fst a = fst b) as Hk
            by (apply leb_antisym; [apply (Ha _ Hin2) | apply (Hb _ Hin1)]).
        inversion Hn as [|? ? Hnotin _]; subst. exfalso. apply Hnotin.
        rewrite Hk. apply in_map. exact Hin2. }
      f_equal. apply IH.
      * exact Hs2.
      * exact (Permutation_cons_inv Hp).
      * inversion Hn; assumption.
Qed.

Lemma sort_items_unique (V : Type) (l1 l2 : list (pystr * V)) :
  Permutation l1 l2 -> NoDup (map fst l1) ->
  Json.sort_items l1 = Json.sort_items l2.
Proof.
  intros Hp Hn. apply sorted_items_unique.
  - apply sort_items_sorted.
  - apply sort_items_sorted.
  - rewrite !sort_items_perm. exact Hp.
  - apply (Permutation_NoDup (l := map fst l1)); [|exact Hn].
    apply Permutation_map, Permutation_sym, sort_items_perm.
Qed.

(** Ordering the items commutes with a map on their values: the encoder
    may order a dictionary's items before or after it encodes the values. *)
Lemma insert_item_map (V W : Type) (f : V -> W) (kv : pystr * V) (l : list (pystr * V)) :
  Json.insert_item (fst kv, f (snd kv)) (map (fun kv => (fst kv, f (snd kv))) l) =
  map (fun kv => (fst kv, f (snd kv))) (Json.insert_item kv l).
Proof.
  induction l as [|kv' l IH]; simpl; [reflexivity|].
  destruct (Str.leb (fst kv) (fst kv')); simpl; [reflexivity|].
  simpl in IH. rewrite IH. reflexivity.
Qed.

Lemma sort_items_map (V W : Type) (f : V -> W) (l : list (pystr * V)) :
  Json.sort_items (map (fun kv => (fst kv, f (snd kv))) l) =
  map (fun kv => (fst kv, f (snd kv))) (Json.sort_items l).
Proof.
  induction l as [|kv l IH]; simpl; [reflexivity|].
  rewrite IH. apply insert_item_map.
Qed.

(** ** Serialisation does not depend on insertion order *)

Lemma well_formed_list (l : list pyval) :
  well_formed (PList l) <-> Forall well_formed l.
Proof.
  simpl. induction l as [|x l IH].
  - split; constructor.
  - rewrite IH. split.
    + intros [Hx Hl]. constructor; assumption.
    + intros H. inversion H; subst. split; assumption.
Qed.

Lemma well_formed_dict (d : dict) :
  well_formed (PDict d) <->
  NoDup (map fst d) /\ Forall (fun kv => well_formed (snd kv)) d.
Proof.
  simpl. apply and_iff_compat_l. induction d as [|[k x] d IH].
  - split; constructor.
  - rewrite IH. split.
    + intros [Hx Hd]. constructor; assumption.
    + intros H. inversion H; subst. split; assumption.
Qed.

Lemma same_content_list (l1 l2 : list pyval) :
  same_content (PList l1) (PList l2) <-> Forall2 same_content l1 l2.
Proof.
  simpl. revert l2; induction l1 as [|x l1 IH]; intros [|y l2].
  - split; constructor.
  - split; [intros [] | intros H; inversion H].
  - split; [intros [] | intros H; inversion H].
  - rewrite IH. split.
    + intros [Hx Hl]. constructor; assumption.
    + intros H. inversion H; subst. split; assumption.
Qed.

Lemma same_content_dict (d1 d2 : dict) :
  same_content (PDict d1) (PDict d2) <->
  List.length d1 = List.length d2
  /\ Forall (fun kv => exists y, Dict.lookup d2 (fst kv) = Some y
                                 /\ same_content (snd kv) y) d1.
Proof.
  simpl. apply and_iff_compat_l. induction d1 as [|[k x] d1 IH].
  - split; constructor.
  - rewrite IH. split.
    + intros [Hx Hd]. constructor; assumption.
    + intros H. inversion H; subst. split; assumption.
Qed.

Lemma lookup_In (d : dict) (k : pystr) (v : pyval) :
  Dict.lookup d k = Some v -> In (k, v) d.
Proof.
  induction d as [|[k' v'] d IH]; simpl; [discriminate|].
  destruct (pystr_eqb k' k) eqn:E.
  - apply pystr_eqb_spec in E. intros H. inversion H; subst. left. reflexivity.
  - intros H. right. exact (IH H).
Qed.

Section Determinism.

Variable floatstr : float -> pystr.
Variable indent : option nat.

Let encode := Json.encode floatstr indent true.

Lemma encode_same_content (v1 : pyval) :
  forall v2, well_formed v1 -> same_content v1 v2 ->
             forall level, encode level v1 = encode level v2.
Proof.
  induction v1 as [| b | z | f | s | l1 IH | d1 IH] using pyval_nested_ind;
    intros v2 Hwf Hsame level; destruct v2 as [| b2 | z2 | f2 | s2 | l2 | d2];
    try (simpl in Hsame; contradiction);
    try (simpl in Hsame; subst; reflexivity).
  - (* lists *)
    apply same_content_list in Hsame. apply well_formed_list in Hwf.
    unfold encode. rewrite !encode_list_eq. f_equal.
    revert Hwf IH. induction Hsame as [|x y l1 l2 Hxy Hl IHl]; intros Hwf IH.
    + reflexivity.
    + simpl. f_equal.
      * apply (Forall_inv IH); [exact (Forall_inv Hwf) | exact Hxy].
      * apply IHl; [exact (Forall_inv_tail Hwf) | exact (Forall_inv_tail IH)].
  - (* dictionaries *)
    apply same_content_dict in Hsame. destruct Hsame as [Hlen Hsame].
    apply well_formed_dict in Hwf. destruct Hwf as [Hnodup Hwf].
    unfold encode. rewrite !encode_dict_eq. do 2 f_equal.
    unfold Json.order_items. apply sort_items_unique.
    + apply NoDup_Permutation_bis.
      * apply (NoDup_map_inv fst). rewrite map_map. simpl. exact Hnodup.
      * rewrite !length_map, Hlen. apply le_n.
      * intros [k e] Hin. apply in_map_iff in Hin. destruct Hin as ([k' x] & Heq & Hin).
        simpl in Heq. inversion Heq; subst.
        rewrite Forall_forall in Hsame, Hwf, IH.
        destruct (Hsame _ Hin) as (y & Hy & Hxy). simpl in Hy, Hxy.
        apply lookup_In in Hy. apply in_map_iff. exists (k, y). split; [|exact Hy].
        simpl. f_equal. symmetry. apply (IH _ Hin); [apply (Hwf _ Hin) | exact Hxy].
    + rewrite map_map. simpl. exact Hnodup.
Qed.

End Determinism.

(** The layout of a dictionary at depth [level] under [indent=2],
    [sort_keys=True]: one item per line, in key order, two spaces per
    level. *)
Lemma encode_dict_layout (floatstr : float -> pystr) (level : nat) (d : dict) :
  Json.encode floatstr (Some 2%nat) true level (PDict d) =
  match Json.sort_items d with
  | [] => u "{}"
  | items =>
      u "{" ++ chr_newline :: repeat 32 (2 * S level)
      ++ Str.join (u "," ++ chr_newline :: repeat 32 (2 * S level))
           (map (fun kv =>
                   Json.encode_str (fst kv) ++ u ": "
                   ++ Json.encode floatstr (Some 2%nat) true (S level) (snd kv))
                items)
      ++ chr_newline :: repeat 32 (2 * level) ++ u "}"
  end.
Proof.
  rewrite encode_dict_eq. unfold Json.order_items.
  rewrite (sort_items_map (Json.encode floatstr (Some 2%nat) true (S level)) d).
  rewrite map_map.
  destruct (Json.sort_items d) as [|kv items]; [reflexivity|].
  unfold Json.render_container, Json.render_item, Json.newline_indent,
    Json.item_separator, Json.key_separator.
  cbn [map fst snd]. reflexivity.
Qed.

(** C8. Serialisation is a function of the content alone: two snapshots
    with identical content, the first with pairwise distinct keys as every
    dictionary has, serialise to the same text, in whatever order their keys
    were inserted (in particular a snapshot serialised twice gives the same
    text).  At every depth a dictionary is written with its items in
    lexicographic key order, one per line, indented by two spaces per
    level. *)
Theorem to_json_deterministic (floatstr : float -> pystr) (s1 s2 : TelemetrySnapshot) :
  well_formed (PDict (data s1)) ->
  same_content (PDict (data s1)) (PDict (data s2)) ->
  to_json floatstr s1 = to_json floatstr s2
  /\ to_json floatstr s1 = Json.encode floatstr (Some 2%nat) true 0 (PDict (data s1))
  /\ forall (level : nat) (d : dict),
       exists items,
         Permutation items d
         /\ StronglySorted key_le items
         /\ Json.encode floatstr (Some 2%nat) true level (PDict d) =
            match items with
            | [] => u "{}"
            | _ =>
                u "{" ++ chr_newline :: repeat 32 (2 * S level)
                ++ Str.join (u "," ++ chr_newline :: repeat 32 (2 * S level))
                     (map (fun kv =>
                             Json.encode_str (fst kv) ++ u ": "
                             ++ Json.encode floatstr (Some 2%nat) true (S level) (snd kv))
                          items)
                ++ chr_newline :: repeat 32 (2 * level) ++ u "}"
            end.
Proof.
  intros Hwf Hsame. split; [|split].
  - unfold to_json, Json.dumps. apply encode_same_content; assumption.
  - reflexivity.
  - intros level d. exists (Json.sort_items d).
    split; [apply sort_items_perm|]. split; [apply sort_items_sorted|].
    rewrite encode_dict_layout. destruct (Json.sort_items d); reflexivity.
Qed.

(** The sample snapshot and the same content inserted in the opposite
    order serialise alike. *)
Lemma to_json_deterministic_example :
  well_formed (PDict (data sample_snapshot))
  /\ same_content (PDict (data sample_snapshot)) (PDict (data sample_snapshot_reordered))
  /\ to_json sample_floatstr sample_snapshot
     = to_json sample_floatstr sample_snapshot_reordered.
Proof.
  assert (well_formed (PDict (data sample_snapshot))) as Hwf.
  { simpl. split; [|tauto].
    constructor; [simpl; intros [H|[]]; discriminate|].
    constructor; [simpl; tauto | constructor]. }
  assert (same_content (PDict (data sample_snapshot))
                       (PDict (data sample_snapshot_reordered))) as Hsame.
  { simpl. split; [reflexivity|]. split; [|split; [|exact I]].
    - exists (PFloat 1.5). split; reflexivity.
    - exists PNone. split; [reflexivity | exact I]. }
  split; [exact Hwf|]. split; [exact Hsame|].
  exact (proj1 (@to_json_deterministic sample_floatstr sample_snapshot
                  sample_snapshot_reordered Hwf Hsame)).
Defined.

(** ** Collected snapshots are well formed *)

Lemma distinctb_spec (keys : list pystr) : distinctb keys = true -> NoDup keys.
Proof.
  induction keys as [|k keys IH]; simpl; [constructor|].
  rewrite andb_true_iff, negb_true_iff. intros [Hk Hd].
  constructor; [|exact (IH Hd)].
  intros Hin. assert (existsb (pystr_eqb k) keys = true) as E; [|congruence].
  apply existsb_exists. exists k. split; [exact Hin | apply pystr_eqb_refl].
Qed.

Lemma in_keys_set (d : dict) (k x : pystr) (v : pyval) :
  In x (map fst (Dict.set d k v)) -> x = k \/ In x (map fst d).
Proof.
  induction d as [|[k' v'] d IH]; simpl.
  - intros [H|[]]. left. congruence.
  - destruct (pystr_eqb k' k); simpl.
    + tauto.
    + intros [H|H]; [tauto|]. destruct (IH H); tauto.
Qed.

Lemma set_well_formed (d : dict) (k : pystr) (v : pyval) :
  well_formed (PDict d) -> well_formed v -> well_formed (PDict (Dict.set d k v)).
Proof.
  rewrite !well_formed_dict. intros [Hn Hv] Hwf. split.
  - clear Hv. induction d as [|[k' v'] d IH]; simpl.
    + constructor; [intros [] | constructor].
    + inversion Hn as [|? ? Hnotin Hn']; subst.
      destruct (pystr_eqb k' k) eqn:E; simpl.
      * exact Hn.
      * constructor; [|exact (IH Hn')].
        intros Hin. apply in_keys_set in Hin. destruct Hin as [->|Hin].
        -- rewrite pystr_eqb_refl in E. discriminate.
        -- exact (Hnotin Hin).
  - clear Hn. induction Hv as [|[k' v'] d Hx Hd IH]; simpl.
    + repeat constructor. exact Hwf.
    + destruct (pystr_eqb k' k); constructor; assumption.
Qed.

Lemma fold_set_well_formed (entries : list (pystr * pystr)) (d : dict) :
  well_formed (PDict d) ->
  well_formed (PDict (fold_left (fun d kv => Dict.set d (fst kv) (PStr (snd kv))) entries d)).
Proof.
  revert d; induction entries as [|kv entries IH]; intros d Hd; simpl; [exact Hd|].
  apply IH. apply set_well_formed; [exact Hd | exact I].
Qed.

Lemma update_well_formed (d other : dict) :
  well_formed (PDict d) -> well_formed (PDict other) ->
  well_formed (PDict (Dict.update d other)).
Proof.
  intros Hd Ho. apply well_formed_dict in Ho. destruct Ho as [_ Ho].
  unfold Dict.update. revert d Hd.
  induction Ho as [|kv other Hkv _ IH]; intros d Hd; simpl; [exact Hd|].
  apply IH. apply set_well_formed; assumption.
Qed.

Lemma parse_key_value_file_well_formed (h : host) (path : pystr) (parsed : dict) :
  TelemetryCollector._parse_key_value_file h path = Ok parsed ->
  well_formed (PDict parsed).
Proof.
  unfold TelemetryCollector._parse_key_value_file.
  assert (well_formed (PDict [])) as Hnil by (simpl; split; [constructor | exact I]).
  destruct (files h path) as [| |content];
    try (intros H; inversion H; subst; exact Hnil).
  destruct (Utf8.decode content) as [text|]; [|discriminate].
  unfold TelemetryCollector.parse_key_value_text.
  rewrite parse_lines_fold, fold_parse_step_entries.
  intros H; inversion H; subst. apply fold_set_well_formed. exact Hnil.
Qed.

(** Every snapshot [collect] returns satisfies the dictionary invariant at
    every depth, so that its serialisation is the one of its content. *)
Theorem collect_well_formed (h : host) (snapshot : TelemetrySnapshot) :
  TelemetryCollector.collect h = Ok snapshot ->
  well_formed (PDict (data snapshot)).
Proof.
  unfold TelemetryCollector.collect.
  destruct (TelemetryCollector._load_average h) as [la|e] eqn:Ela; [|discriminate].
  destruct (TelemetryCollector._memory_info h) as [memory|e] eqn:Em; [|discriminate].
  destruct (TelemetryCollector._process_info h) as [process|e] eqn:Ep; [|discriminate].
  simpl. intros H; inversion H; subst; clear H.
  assert (well_formed la) as Hla.
  { unfold TelemetryCollector._load_average in Ela.
    destruct (os_getloadavg h); inversion Ela; subst; [exact I|].
    apply well_formed_dict. split; [apply distinctb_spec; reflexivity|].
    repeat constructor. }
  assert (well_formed (PDict memory)) as Hm.
  { unfold TelemetryCollector._memory_info in Em.
    destruct (os_path_exists h TelemetryCollector.meminfo_path).
    - destruct (TelemetryCollector._parse_key_value_file h TelemetryCollector.meminfo_path)
        as [parsed|e] eqn:E; [|discriminate].
      simpl in Em. inversion Em; subst.
      apply update_well_formed; [simpl; split; [constructor | exact I]|].
      exact (parse_key_value_file_well_formed _ _ E).
    - inversion Em; subst. simpl. split; [constructor | exact I]. }
  assert (well_formed (PDict process)) as Hp.
  { unfold TelemetryCollector._process_info in Ep.
    match type of Ep with
    | (if _ then _ else Ok ?info) = _ =>
        assert (well_formed (PDict info)) as Hinfo
            by (apply well_formed_dict; split;
                [apply distinctb_spec; reflexivity | repeat constructor])
    end.
    destruct (os_path_exists h (TelemetryCollector.status_path h)).
    - destruct (TelemetryCollector._parse_key_value_file h (TelemetryCollector.status_path h))
        as [parsed|e] eqn:E; [|discriminate].
      simpl in Ep. inversion Ep; subst.
      apply update_well_formed; [exact Hinfo|].
      exact (parse_key_value_file_well_formed _ _ E).
    - inversion Ep; subst. exact Hinfo. }
  apply well_formed_dict. split; [apply distinctb_spec; reflexivity|].
  constructor; [exact I|]. constructor; [|].
  { cbn [snd]. apply well_formed_dict.
    split; [apply distinctb_spec; reflexivity | repeat constructor]. }
  constructor; [exact Hla|]. constructor; [exact Hm|].
  constructor; [exact Hp | constructor].
Qed.

(** The snapshot of the sample Linux host. *)
Lemma collect_well_formed_example :
  exists snapshot,
    TelemetryCollector.collect linux_host = Ok snapshot
    /\ well_formed (PDict (data snapshot)).
Proof.
  destruct (TelemetryCollector.collect linux_host) as [snapshot|e] eqn:E.
  - exists snapshot. split; [reflexivity|]. exact (collect_well_formed linux_host E).
  - exfalso. vm_compute in E. discriminate.
Defined.

(** ** Further properties *)

(** On a host whose files decode and whose load-average call, if any,
    succeeds, [collect] returns a snapshot with the five sections
    [timestamp], [platform], [load_average], [memory], [process]: a missing
    facility, a missing file and a file that cannot be opened are absorbed. *)
Theorem collect_total_on_readable_hosts (h : host) :
  readable h -> os_getloadavg h <> LoadAvgUnobtainable ->
  exists snapshot,
    TelemetryCollector.collect h = Ok snapshot
    /\ Dict.keys (data snapshot) =
       [ u "timestamp"; u "platform"; u "load_average"; u "memory"; u "process" ].
Proof.
  intros Hr Hl.
  destruct (collect_returns Hr Hl) as (la & memory & process & _ & ->).
  eexists. split; reflexivity.
Qed.

(** The bare host, and the same host with a memory file that cannot be
    opened. *)
Lemma collect_total_examples :
  (exists snapshot,
      TelemetryCollector.collect bare_host = Ok snapshot
      /\ Dict.keys (data snapshot) =
         [ u "timestamp"; u "platform"; u "load_average"; u "memory"; u "process" ])
  /\ (exists snapshot,
         TelemetryCollector.collect
           (with_file bare_host (u "/proc/meminfo") FileUnreadable) = Ok snapshot
         /\ Dict.keys (data snapshot) =
            [ u "timestamp"; u "platform"; u "load_average"; u "memory"; u "process" ]).
Proof.
  split.
  - apply (@collect_total_on_readable_hosts bare_host readable_bare_host). discriminate.
  - apply (@collect_total_on_readable_hosts
             (with_file bare_host (u "/proc/meminfo") FileUnreadable)).
    + intros path content _ H. simpl in H.
      destruct (pystr_eqb path (u "/proc/meminfo")); discriminate.
    + discriminate.
Defined.

(** When the memory file is absent, or is there and cannot be opened, the
    [memory] section is the empty mapping: present, and empty. *)
Theorem memory_info_empty (h : host) :
  files h TelemetryCollector.meminfo_path = FileAbsent
  \/ files h TelemetryCollector.meminfo_path = FileUnreadable ->
  TelemetryCollector._memory_info h = Ok [].
Proof.
  unfold TelemetryCollector._memory_info, os_path_exists,
    TelemetryCollector._parse_key_value_file.
  intros [H|H]; rewrite H; reflexivity.
Qed.

Lemma memory_info_empty_example :
  TelemetryCollector._memory_info bare_host = Ok [].
Proof. exact (@memory_info_empty bare_host (or_introl eq_refl)). Defined.

(** The serialisation of the sample snapshot. *)
Example to_json_sample :
  to_json sample_floatstr sample_snapshot =
  u "{" ++ [chr_newline]
  ++ json_text "  'load_average': null," ++ [chr_newline]
  ++ json_text "  'timestamp': 1.5" ++ [chr_newline]
  ++ u "}".
Proof. vm_compute. reflexivity. Qed.

(** The whole exchange on a well-formed answer. *)
Example analyze_sample :
  fst (ChatGPTTelemetryAnalyzer.analyze sample_floatstr sample_json_loads
         sample_analyzer sample_snapshot
         (always (HTTPResponse
                    (latin_bytes
                       (json_text "{'choices':[{'message':{'content':' hello '}}]}"))))
         [])
  = Ok [ (u "analysis", PStr (u "hello")); (u "raw_response", PDict response_hello) ].
Proof. vm_compute. reflexivity. Qed.

(** * Further properties of the collector *)

(** ** Trimming *)

Lemma lstrip_suffix (s : pystr) :
  exists p, s = p ++ Str.lstrip s /\ blank p.
Proof.
  induction s as [|c s (p & Hp & Hb)]; simpl.
  - exists []. split; [reflexivity | constructor].
  - destruct (Str.isspace c) eqn:E.
    + exists (c :: p). split; [simpl; f_equal; exact Hp | constructor; assumption].
    + exists []. split; [reflexivity | constructor].
Qed.

Lemma strip_trimmed (s : pystr) : trimmed (Str.strip s).
Proof.
  unfold Str.strip, Str.rstrip. split.
  - (* the first character is the first of [lstrip s] *)
    intros c t H.
    destruct (lstrip_suffix (rev (Str.lstrip s))) as (p & Hp & _).
    apply (f_equal (@rev pychar)) in Hp. rewrite rev_involutive, rev_app_distr, H in Hp.
    simpl in Hp. exact (lstrip_head _ Hp).
  - (* the last character is the first of the inner [lstrip] *)
    intros t c H. apply (f_equal (@rev pychar)) in H.
    rewrite rev_involutive, rev_app_distr in H. simpl in H.
    exact (lstrip_head _ H).
Qed.

Lemma lstrip_incl (s : pystr) (c : pychar) : In c (Str.lstrip s) -> In c s.
Proof.
  destruct (lstrip_suffix s) as (p & Hp & _). intros H. rewrite Hp.
  apply in_or_app. right. exact H.
Qed.

Lemma strip_incl (s : pystr) (c : pychar) : In c (Str.strip s) -> In c s.
Proof.
  unfold Str.strip, Str.rstrip. intros H.
  rewrite <- in_rev in H. apply lstrip_incl in H.
  rewrite <- in_rev in H. apply lstrip_incl. exact H.
Qed.

(** ** What the parsed mapping holds *)

Lemma set_Forall (P : pystr * pyval -> Prop) (d : dict) (k : pystr) (v : pyval) :
  Forall P d -> P (k, v) -> Forall P (Dict.set d k v).
Proof.
  intros Hd Hkv. induction Hd as [|[k' v'] d Hx Hd IH]; simpl.
  - repeat constructor. exact Hkv.
  - destruct (pystr_eqb k' k) eqn:E.
    + apply pystr_eqb_spec in E. subst k'. constructor; assumption.
    + constructor; assumption.
Qed.

Lemma fold_parse_step_Forall (P : pystr * pyval -> Prop) (lines : list pystr) (acc : dict) :
  (forall line k v, In line lines -> key_value line = Some (k, v) -> P (k, PStr v)) ->
  Forall P acc -> Forall P (fold_left parse_step lines acc).
Proof.
  revert acc; induction lines as [|line lines IH]; intros acc Hl Hacc; simpl; [exact Hacc|].
  apply IH.
  - intros l k v Hin. apply Hl. right. exact Hin.
  - unfold parse_step. destruct (key_value line) as [[k v]|] eqn:E; [|exact Hacc].
    apply set_Forall; [exact Hacc|]. apply (Hl line); [left; reflexivity | exact E].
Qed.

(** Every entry of the parsed mapping has a key without surrounding
    whitespace and without a colon, and a value that is a string without
    surrounding whitespace; no key occurs twice. *)
Theorem parse_key_value_text_trimmed (text : pystr) :
  exists parsed,
    TelemetryCollector.parse_key_value_text text = Ok parsed
    /\ NoDup (Dict.keys parsed)
    /\ Forall (fun kv =>
                 trimmed (fst kv) /\ ~ In chr_colon (fst kv)
                 /\ exists v, snd kv = PStr v /\ trimmed v) parsed.
Proof.
  unfold TelemetryCollector.parse_key_value_text. rewrite parse_lines_fold.
  eexists. split; [reflexivity|]. split.
  - rewrite fold_parse_step_entries.
    assert (well_formed (PDict [])) as Hnil by (simpl; split; [constructor | exact I]).
    apply (fold_set_well_formed
             (flat_map (fun line => match key_value line with
                                    | Some kv => [kv]
                                    | None => []
                                    end) (TextIO.lines text))) in Hnil.
    apply well_formed_dict in Hnil. exact (proj1 Hnil).
  - apply fold_parse_step_Forall; [|constructor].
    intros line k v _ Hkv. apply entry_of_key_value in Hkv.
    destruct Hkv as (a & b & _ & Hcolon & -> & ->). simpl. split; [apply strip_trimmed|].
    split.
    + intros Hin. apply Hcolon. exact (strip_incl _ _ Hin).
    + exists (Str.strip b). split; [reflexivity | apply strip_trimmed].
Qed.

(** ** The empty mapping *)

Lemma translate_newlines_In (c : pychar) (s : pystr) :
  c <> chr_newline -> c <> chr_return ->
  (In c (TextIO.translate_newlines s) <-> In c s).
Proof.
  intros Hn Hr.
  assert (forall n s, (List.length s <= n)%nat ->
                      (In c (TextIO.translate_newlines s) <-> In c s)) as H.
  { induction n as [|n IH]; intros [|x t] Hlen; simpl in Hlen; try lia; try (simpl; tauto).
    simpl. destruct (N.eqb_spec x chr_return) as [->|Hx].
    - destruct t as [|d t'].
      + simpl. split; [intros [H|[]]; congruence | intros [H|[]]; congruence].
      + destruct (N.eqb_spec d chr_newline) as [->|Hd]; simpl.
        * rewrite (IH t') by (simpl in *; lia).
          split; [intros [H|H]; [congruence | auto] | intros [H|[H|H]]; [congruence | congruence | auto]].
        * rewrite (IH (d :: t')) by (simpl in *; lia). simpl.
          split; [intros [H|H]; [congruence | auto] | intros [H|H]; [congruence | auto]].
    - simpl. rewrite (IH t) by lia. tauto. }
  apply (H (List.length s)). apply le_n.
Qed.

Lemma split_lines_In (c : pychar) (s cur : pystr) :
  (exists line, In line (TextIO.split_lines cur s) /\ In c line) <-> In c cur \/ In c s.
Proof.
  revert cur; induction s as [|x s IH]; intros cur; simpl.
  - destruct cur as [|y cur].
    + split; [intros (line & [] & _) | intros [[]|[]]].
    + split.
      * intros (line & [<-|[]] & H). left. apply in_rev. exact H.
      * intros [H|[]]. exists (rev (y :: cur)). split; [left; reflexivity|].
        apply in_rev. rewrite rev_involutive. exact H.
  - destruct (N.eqb_spec x chr_newline) as [->|Hx].
    + split.
      * intros (line & [<-|Hin] & H).
        -- simpl in H. apply in_app_or in H. destruct H as [H|[<-|[]]].
           ++ left. apply in_rev. exact H.
           ++ right. left. reflexivity.
        -- destruct (proj1 (IH [])) as [[]|H']; [eauto | right; right; exact H'].
      * intros [H|[<-|H]].
        -- exists (rev (chr_newline :: cur)). split; [left; reflexivity|].
           simpl. apply in_or_app. left. apply in_rev. rewrite rev_involutive. exact H.
        -- exists (rev (chr_newline :: cur)). split; [left; reflexivity|].
           simpl. apply in_or_app. right. left. reflexivity.
        -- destruct (proj2 (IH []) (or_intror H)) as (line & Hin & Hc).
           exists line. split; [right; exact Hin | exact Hc].
    + rewrite IH. simpl. tauto.
Qed.

Lemma lines_In_colon (text : pystr) :
  (exists line, In line (TextIO.lines text) /\ In chr_colon line) <-> In chr_colon text.
Proof.
  unfold TextIO.lines. rewrite split_lines_In, translate_newlines_In by discriminate.
  simpl. tauto.
Qed.

Lemma set_not_nil (d : dict) (k : pystr) (v : pyval) : Dict.set d k v <> [].
Proof.
  destruct d as [|[k' v'] d]; simpl; [discriminate|].
  destruct (pystr_eqb k' k); discriminate.
Qed.

Lemma fold_parse_step_nil (lines : list pystr) (acc : dict) :
  fold_left parse_step lines acc = [] <->
  acc = [] /\ forall line, In line lines -> ~ In chr_colon line.
Proof.
  revert acc; induction lines as [|line lines IH]; intros acc; simpl.
  - split; [intros ->; split; [reflexivity | intros ? []] | tauto].
  - rewrite IH. unfold parse_step.
    destruct (key_value line) as [[k v]|] eqn:E.
    + split.
      * intros [H _]. exfalso. exact (set_not_nil _ _ _ H).
      * intros [_ H]. exfalso. apply (H line (or_introl eq_refl)).
        apply entry_of_key_value in E. destruct E as (a & b & -> & _).
        apply in_or_app. right. left. reflexivity.
    + apply key_value_None in E. split.
      * intros [-> H]. split; [reflexivity|]. intros l [<-|Hin]; [exact E | exact (H l Hin)].
      * intros [-> H]. split; [reflexivity|]. intros l Hin. apply H. right. exact Hin.
Qed.

(** The parser returns the empty mapping exactly on the texts without any
    colon (the empty text among them). *)
Theorem parse_key_value_text_empty (text : pystr) :
  TelemetryCollector.parse_key_value_text text = Ok [] <-> ~ In chr_colon text.
Proof.
  unfold TelemetryCollector.parse_key_value_text. rewrite parse_lines_fold.
  rewrite <- lines_In_colon. split.
  - intros H. inversion H as [H']. apply fold_parse_step_nil in H'.
    destruct H' as [_ H']. intros (line & Hin & Hc). exact (H' line Hin Hc).
  - intros H. f_equal. apply fold_parse_step_nil. split; [reflexivity|].
    intros line Hin Hc. apply H. exists line. split; assumption.
Qed.

(** ** Parsing a text in two parts *)

Lemma translate_newlines_app (a b : pystr) :
  TextIO.translate_newlines (a ++ chr_newline :: b) =
  TextIO.translate_newlines (a ++ [chr_newline]) ++ TextIO.translate_newlines b.
Proof.
  assert (forall n a, (List.length a <= n)%nat ->
            TextIO.translate_newlines (a ++ chr_newline :: b) =
            TextIO.translate_newlines (a ++ [chr_newline]) ++ TextIO.translate_newlines b) as H.
  { induction n as [|n IH]; intros [|x t] Hlen; simpl in Hlen; try lia; try reflexivity.
    cbn [app TextIO.translate_newlines].
    destruct (N.eqb_spec x chr_return) as [->|Hx].
    - destruct t as [|d t']; [reflexivity|].
      cbn [app]. destruct (N.eqb_spec d chr_newline) as [->|Hd].
      + rewrite (IH t') by (simpl in *; lia). reflexivity.
      + assert (List.length (d :: t') <= n)%nat as Hd' by (simpl in *; lia).
        pose proof (IH (d :: t') Hd') as H'. cbn [app] in H'. rewrite H'. reflexivity.
    - rewrite (IH t) by lia. reflexivity. }
  apply (H (List.length a)). apply le_n.
Qed.

Lemma translate_newlines_last (a : pystr) :
  exists a', TextIO.translate_newlines (a ++ [chr_newline]) = a' ++ [chr_newline].
Proof.
  assert (forall n a, (List.length a <= n)%nat ->
            exists a', TextIO.translate_newlines (a ++ [chr_newline]) = a' ++ [chr_newline]) as H.
  { induction n as [|n IH]; intros [|x t] Hlen; simpl in Hlen; try lia;
      try (exists []; reflexivity).
    cbn [app TextIO.translate_newlines].
    destruct (N.eqb_spec x chr_return) as [->|Hx].
    - destruct t as [|d t']; [exists []; reflexivity|].
      cbn [app]. destruct (N.eqb_spec d chr_newline) as [->|Hd].
      + destruct (IH t') as [a' ->]; [simpl in *; lia|]. exists (chr_newline :: a'). reflexivity.
      + destruct (IH (d :: t')) as [a' Ha']; [simpl in *; lia|].
        cbn [app] in Ha'. rewrite Ha'. exists (chr_newline :: a'). reflexivity.
    - destruct (IH t) as [a' ->]; [lia|]. exists (x :: a'). reflexivity. }
  apply (H (List.length a)). apply le_n.
Qed.

Lemma split_lines_app (a b cur : pystr) :
  TextIO.split_lines cur (a ++ chr_newline :: b) =
  TextIO.split_lines cur (a ++ [chr_newline]) ++ TextIO.split_lines [] b.
Proof.
  revert cur; induction a as [|x a IH]; intros cur.
  - reflexivity.
  - cbn [app TextIO.split_lines]. destruct (N.eqb x chr_newline).
    + rewrite IH. reflexivity.
    + apply IH.
Qed.

(** The lines of a text that follows a complete line are its own. *)
Lemma lines_app (t t2 : pystr) :
  TextIO.lines ((t ++ [chr_newline]) ++ t2) =
  TextIO.lines (t ++ [chr_newline]) ++ TextIO.lines t2.
Proof.
  unfold TextIO.lines. rewrite <- app_assoc. cbn [app].
  rewrite translate_newlines_app.
  destruct (translate_newlines_last t) as [a' ->].
  rewrite <- app_assoc. cbn [app]. apply split_lines_app.
Qed.

Lemma set_set_same (d : dict) (k : pystr) (v v' : pyval) :
  Dict.set (Dict.set d k v') k v = Dict.set d k v.
Proof.
  induction d as [|[k0 v0] d IH]; simpl.
  - rewrite pystr_eqb_refl. reflexivity.
  - destruct (pystr_eqb k0 k) eqn:E; simpl; rewrite E; [reflexivity|].
    rewrite IH. reflexivity.
Qed.

Lemma in_keys_set_keep (d : dict) (k x : pystr) (v : pyval) :
  In x (map fst d) -> In x (map fst (Dict.set d k v)).
Proof.
  induction d as [|[k0 v0] d IH]; simpl; [tauto|].
  destruct (pystr_eqb k0 k); simpl; tauto.
Qed.

(** Assigning an existing key commutes with assigning another key. *)
Lemma set_set_other (d : dict) (k k2 : pystr) (v v2 : pyval) :
  In k (map fst d) -> k <> k2 ->
  Dict.set (Dict.set d k2 v2) k v = Dict.set (Dict.set d k v) k2 v2.
Proof.
  intros Hin Hne. induction d as [|[k0 v0] d IH]; [destruct Hin|].
  simpl. destruct (pystr_eqb k0 k2) eqn:E2; destruct (pystr_eqb k0 k) eqn:E; simpl;
    rewrite ?E, ?E2; try reflexivity.
  - apply pystr_eqb_spec in E2. apply pystr_eqb_spec in E. congruence.
  - f_equal. apply IH. simpl in Hin. destruct Hin as [Hin|Hin]; [|exact Hin].
    subst k0. rewrite pystr_eqb_refl in E. discriminate.
Qed.

Lemma set_update_fresh (other d : dict) (k : pystr) (v : pyval) :
  ~ In k (map fst other) -> In k (map fst d) ->
  Dict.set (Dict.update d other) k v = Dict.update (Dict.set d k v) other.
Proof.
  unfold Dict.update. revert d; induction other as [|[k2 v2] other IH]; intros d Hfresh Hin.
  - reflexivity.
  - simpl in *. rewrite IH.
    + rewrite set_set_other; [reflexivity | exact Hin |].
      intros ->. apply Hfresh. left. reflexivity.
    + tauto.
    + apply in_keys_set_keep. exact Hin.
Qed.

Lemma in_keys_set_new (d : dict) (k : pystr) (v : pyval) :
  In k (map fst (Dict.set d k v)).
Proof.
  induction d as [|[k0 v0] d IH]; simpl; [auto|].
  destruct (pystr_eqb k0 k) eqn:E; simpl; [|auto].
  left. apply pystr_eqb_spec. exact E.
Qed.

(** Updating with a dictionary after one more assignment is the update
    followed by that assignment. *)
Lemma update_set (other d : dict) (k : pystr) (v : pyval) :
  NoDup (map fst other) ->
  Dict.update d (Dict.set other k v) = Dict.set (Dict.update d other) k v.
Proof.
  revert d; induction other as [|[k2 v2] other IH]; intros d Hn.
  - reflexivity.
  - inversion Hn as [|? ? Hfresh Hn']; subst. simpl.
    destruct (pystr_eqb k2 k) eqn:E.
    + apply pystr_eqb_spec in E. subst k2.
      change (Dict.update d ((k, v) :: other)) with (Dict.update (Dict.set d k v) other).
      change (Dict.update d ((k, v2) :: other)) with (Dict.update (Dict.set d k v2) other).
      rewrite set_update_fresh; [|exact Hfresh | apply in_keys_set_new].
      rewrite set_set_same. reflexivity.
    + change (Dict.update d ((k2, v2) :: Dict.set other k v))
        with (Dict.update (Dict.set d k2 v2) (Dict.set other k v)).
      rewrite IH by exact Hn'. reflexivity.
Qed.

Lemma fold_set_update (entries : list (pystr * pystr)) (d : dict) :
  fold_left (fun d kv => Dict.set d (fst kv) (PStr (snd kv))) entries d =
  Dict.update d (fold_left (fun d kv => Dict.set d (fst kv) (PStr (snd kv))) entries []).
Proof.
  induction entries as [|kv entries IH] using rev_ind; [reflexivity|].
  rewrite !fold_left_app. simpl. rewrite IH. symmetry. apply update_set.
  assert (well_formed (PDict [])) as Hnil by (simpl; split; [constructor | exact I]).
  apply (fold_set_well_formed entries) in Hnil.
  apply well_formed_dict in Hnil. exact (proj1 Hnil).
Qed.

(** Parsing a text that continues after a complete line gives the mapping
    of the first part updated with the mapping of the rest: a key of the
    rest replaces the value the first part gave it and keeps its place, a
    new key is appended. *)
Theorem parse_key_value_text_app (t t2 : pystr) :
  exists d1 d2,
    TelemetryCollector.parse_key_value_text (t ++ [chr_newline]) = Ok d1
    /\ TelemetryCollector.parse_key_value_text t2 = Ok d2
    /\ TelemetryCollector.parse_key_value_text ((t ++ [chr_newline]) ++ t2)
       = Ok (Dict.update d1 d2).
Proof.
  unfold TelemetryCollector.parse_key_value_text.
  rewrite !parse_lines_fold, lines_app, fold_left_app.
  do 2 eexists. split; [reflexivity|]. split; [reflexivity|].
  f_equal. rewrite !fold_parse_step_entries. apply fold_set_update.
Qed.

(** ** How [collect] fails *)

Lemma parse_key_value_file_outcome (h : host) (path : pystr) :
  match TelemetryCollector._parse_key_value_file h path with
  | Ok _ => ~ undecodable h path
  | Raise e => e = UnicodeDecodeError /\ undecodable h path
  end.
Proof.
  unfold TelemetryCollector._parse_key_value_file, undecodable.
  destruct (files h path) as [| |content] eqn:E;
    try (intros (c & Hc & _); discriminate).
  destruct (Utf8.decode content) as [text|] eqn:Ed.
  - unfold TelemetryCollector.parse_key_value_text. rewrite parse_lines_fold.
    intros (c & Hc & Hd). inversion Hc; subst. congruence.
  - split; [reflexivity|]. exists content. split; [reflexivity | exact Ed].
Qed.

Lemma undecodable_exists (h : host) (path : pystr) :
  undecodable h path -> os_path_exists h path = true.
Proof.
  intros (c & Hc & _). unfold os_path_exists. rewrite Hc. reflexivity.
Qed.

Lemma memory_info_outcome (h : host) :
  match TelemetryCollector._memory_info h with
  | Ok _ => ~ undecodable h TelemetryCollector.meminfo_path
  | Raise e => e = UnicodeDecodeError /\ undecodable h TelemetryCollector.meminfo_path
  end.
Proof.
  unfold TelemetryCollector._memory_info.
  destruct (os_path_exists h TelemetryCollector.meminfo_path) eqn:Ex.
  - pose proof (parse_key_value_file_outcome h TelemetryCollector.meminfo_path) as H.
    destruct (TelemetryCollector._parse_key_value_file h TelemetryCollector.meminfo_path);
      exact H.
  - intros H. apply undecodable_exists in H. congruence.
Qed.

Lemma process_info_outcome (h : host) :
  match TelemetryCollector._process_info h with
  | Ok _ => ~ undecodable h (TelemetryCollector.status_path h)
  | Raise e => e = UnicodeDecodeError /\ undecodable h (TelemetryCollector.status_path h)
  end.
Proof.
  unfold TelemetryCollector._process_info.
  destruct (os_path_exists h (TelemetryCollector.status_path h)) eqn:Ex.
  - pose proof (parse_key_value_file_outcome h (TelemetryCollector.status_path h)) as H.
    destruct (TelemetryCollector._parse_key_value_file h (TelemetryCollector.status_path h));
      exact H.
  - intros H. apply undecodable_exists in H. congruence.
Qed.

(** [collect] fails in two ways and no other: with [OSError] when
    [os.getloadavg] exists and fails, and otherwise with
    [UnicodeDecodeError] when the memory file or the status file is there
    and is not UTF-8.  It returns a snapshot exactly when neither is the
    case. *)
Theorem collect_outcome (h : host) :
  match TelemetryCollector.collect h with
  | Ok _ =>
      os_getloadavg h <> LoadAvgUnobtainable
      /\ ~ undecodable h TelemetryCollector.meminfo_path
      /\ ~ undecodable h (TelemetryCollector.status_path h)
  | Raise e =>
      (os_getloadavg h = LoadAvgUnobtainable /\ e = OSError)
      \/ (os_getloadavg h <> LoadAvgUnobtainable
          /\ e = UnicodeDecodeError
          /\ (undecodable h TelemetryCollector.meminfo_path
              \/ undecodable h (TelemetryCollector.status_path h)))
  end.
Proof.
  unfold TelemetryCollector.collect, TelemetryCollector._load_average.
  pose proof (memory_info_outcome h) as Hm.
  pose proof (process_info_outcome h) as Hp.
  destruct (os_getloadavg h) as [|one five fifteen|] eqn:El; simpl;
    try (left; split; reflexivity);
    (destruct (TelemetryCollector._memory_info h) as [memory|e]; simpl;
     [destruct (TelemetryCollector._process_info h) as [process|e]; simpl|]);
    try (split; [discriminate | split; assumption]);
    right; (split; [discriminate|]); (split; [tauto|]); tauto.
Qed.

(** ** The sections read from files *)

Lemma update_app (other d : dict) :
  NoDup (map fst (d ++ other)) -> Dict.update d other = d ++ other.
Proof.
  unfold Dict.update. revert d; induction other as [|[k v] other IH]; intros d Hn; simpl.
  - rewrite app_nil_r. reflexivity.
  - assert (Dict.set d k v = d ++ [(k, v)]) as ->.
    { assert (~ In k (map fst d)) as Hfresh.
      { rewrite map_app in Hn. simpl in Hn. apply NoDup_remove_2 in Hn.
        intros Hin. apply Hn. apply in_or_app. left. exact Hin. }
      clear Hn IH. induction d as [|[k0 v0] d IHd]; simpl; [reflexivity|].
      destruct (pystr_eqb k0 k) eqn:E.
      - apply pystr_eqb_spec in E. subst. exfalso. apply Hfresh. left. reflexivity.
      - f_equal. apply IHd. intros Hin. apply Hfresh. right. exact Hin. }
    rewrite IH; rewrite <- app_assoc; [reflexivity | exact Hn].
Qed.

(** The memory section is the mapping the parser returns for the memory
    file, and [_memory_info] fails exactly as the parser does: the test for
    the file's existence changes nothing. *)
Theorem memory_info_is_parsed (h : host) :
  TelemetryCollector._memory_info h =
  TelemetryCollector._parse_key_value_file h TelemetryCollector.meminfo_path.
Proof.
  unfold TelemetryCollector._memory_info, os_path_exists.
  destruct (files h TelemetryCollector.meminfo_path) as [| |content] eqn:E.
  - unfold TelemetryCollector._parse_key_value_file. rewrite E. reflexivity.
  - unfold TelemetryCollector._parse_key_value_file. rewrite E. reflexivity.
  - destruct (TelemetryCollector._parse_key_value_file h TelemetryCollector.meminfo_path)
      as [parsed|e] eqn:Ep; [|reflexivity].
    simpl. f_equal. apply (update_app parsed []). simpl.
    apply parse_key_value_file_well_formed in Ep. apply well_formed_dict in Ep.
    exact (proj1 Ep).
Qed.

Lemma lookup_not_in (d : dict) (k : pystr) :
  ~ In k (map fst d) -> Dict.lookup d k = None.
Proof.
  induction d as [|[k0 v0] d IH]; simpl; [reflexivity|].
  intros H. destruct (pystr_eqb k0 k) eqn:E.
  - apply pystr_eqb_spec in E. subst. exfalso. apply H. left. reflexivity.
  - apply IH. intros Hin. apply H. right. exact Hin.
Qed.

Lemma lookup_update (other d : dict) (k : pystr) :
  NoDup (map fst other) ->
  Dict.lookup (Dict.update d other) k =
  match Dict.lookup other k with
  | Some v => Some v
  | None => Dict.lookup d k
  end.
Proof.
  unfold Dict.update. revert d; induction other as [|[k2 v2] other IH]; intros d Hn; simpl.
  - reflexivity.
  - inversion Hn as [|? ? Hfresh Hn']; subst. rewrite IH by exact Hn'.
    rewrite lookup_set. destruct (pystr_eqb k2 k) eqn:E.
    + apply pystr_eqb_spec in E. subst. rewrite (lookup_not_in _ _ Hfresh). reflexivity.
    + reflexivity.
Qed.

(** In the process section an entry of the status file stands before the
    fixed field of the same key; the six fixed fields are always there. *)
Theorem process_info_merge (h : host) (info : dict) :
  TelemetryCollector._process_info h = Ok info ->
  exists parsed,
    TelemetryCollector._parse_key_value_file h (TelemetryCollector.status_path h) = Ok parsed
    /\ (forall k,
          Dict.lookup info k =
          match Dict.lookup parsed k with
          | Some v => Some v
          | None => Dict.lookup (process_fields h) k
          end)
    /\ (forall k, In k (Dict.keys (process_fields h)) -> Dict.lookup info k <> None).
Proof.
  unfold TelemetryCollector._process_info. fold (process_fields h).
  assert (forall parsed,
             TelemetryCollector._parse_key_value_file h (TelemetryCollector.status_path h)
             = Ok parsed ->
             (forall k,
                 Dict.lookup (Dict.update (process_fields h) parsed) k =
                 match Dict.lookup parsed k with
                 | Some v => Some v
                 | None => Dict.lookup (process_fields h) k
                 end)) as Hmerge.
  { intros parsed Hp k. apply lookup_update.
    apply parse_key_value_file_well_formed in Hp. apply well_formed_dict in Hp.
    exact (proj1 Hp). }
  assert (forall k, In k (Dict.keys (process_fields h)) ->
                    Dict.lookup (process_fields h) k <> None) as Hfixed.
  { intros k Hin. simpl in Hin.
    repeat (destruct Hin as [<-|Hin]; [vm_compute; discriminate|]). destruct Hin. }
  destruct (os_path_exists h (TelemetryCollector.status_path h)) eqn:Ex.
  - destruct (TelemetryCollector._parse_key_value_file h (TelemetryCollector.status_path h))
      as [parsed|e] eqn:Ep; [|discriminate].
    simpl. intros H; inversion H; subst. exists parsed. split; [reflexivity|].
    split; [exact (Hmerge parsed eq_refl)|].
    intros k Hin. rewrite (Hmerge parsed eq_refl).
    destruct (Dict.lookup parsed k); [discriminate | exact (Hfixed k Hin)].
  - intros H; inversion H; subst. exists [].
    unfold TelemetryCollector._parse_key_value_file, os_path_exists in *.
    destruct (files h (TelemetryCollector.status_path h)); try discriminate.
    split; [reflexivity|]. split; [intros k; reflexivity | exact Hfixed].
Qed.

(** A status file with a line [pid: shadow]: the string replaces the
    numeric process id, in its place. *)
Lemma process_info_merge_example :
  exists info,
    TelemetryCollector._process_info host_status_pid = Ok info
    /\ Dict.lookup info (u "pid") = Some (PStr (u "shadow"))
    /\ Dict.lookup info (u "State") = Some (PStr (u "R"))
    /\ Dict.lookup info (u "elapsed") = Some (PFloat 2).
Proof.
  destruct (TelemetryCollector._process_info host_status_pid) as [info|e] eqn:E.
  - exists info. split; [reflexivity|].
    destruct (@process_info_merge host_status_pid info E) as (parsed & Hp & Hl & _).
    vm_compute in Hp. inversion Hp; subst; clear Hp.
    rewrite !Hl. repeat split.
  - exfalso. vm_compute in E. discriminate.
Defined.

(** * Further properties of the serialisation *)

Lemma printableb_spec (s : pystr) : printableb s = true -> Forall printable s.
Proof.
  unfold printableb, printable. rewrite forallb_forall, Forall_forall.
  intros H c Hc. specialize (H c Hc). apply andb_true_iff in H.
  destruct H as [H1 H2]. apply N.leb_le in H1. apply N.leb_le in H2. lia.
Qed.

Lemma printable_uint (d : Decimal.uint) :
  Forall printable (u (NilEmpty.string_of_uint d)).
Proof.
  induction d; simpl; try (constructor; [unfold printable; simpl; lia | exact IHd]).
  constructor.
Qed.

Lemma printable_of_int (z : Z) : Forall printable (Str.of_int z).
Proof.
  unfold Str.of_int, NilZero.string_of_int, NilZero.string_of_uint.
  destruct (Z.to_int z) as [d|d].
  - destruct d; try apply printable_uint. apply printableb_spec. reflexivity.
  - change (Forall printable (45 :: u (match d with
                                        | Decimal.Nil => "0"%string
                                        | _ => NilEmpty.string_of_uint d
                                        end))).
    constructor; [unfold printable; lia|].
    destruct d; try apply printable_uint. apply printableb_spec. reflexivity.
Qed.

Lemma hex_digit_printable (n : N) : n < 16 -> printable (Json.hex_digit n).
Proof.
  intros H. unfold Json.hex_digit, printable. destruct (n <? 10) eqn:E.
  - apply N.ltb_lt in E. lia.
  - lia.
Qed.

Lemma unicode_escape_printable (n : N) : Forall printable (Json.unicode_escape n).
Proof.
  unfold Json.unicode_escape, Json.hex4, chr_backslash.
  repeat (constructor;
          [first [unfold printable; lia
                 | apply hex_digit_printable; apply N.mod_upper_bound; discriminate]|]).
  constructor.
Qed.

Lemma escape_char_printable (c : pychar) : Forall printable (Json.escape_char c).
Proof.
  unfold Json.escape_char.
  repeat match goal with
         | |- Forall printable (if ?b then _ else _) => destruct b eqn:?
         end;
    try (apply printableb_spec; reflexivity);
    try apply unicode_escape_printable;
    try (apply Forall_app; split; apply unicode_escape_printable).
  constructor; [|constructor].
  match goal with
  | H : (_ && _)%bool = true |- _ =>
      apply andb_true_iff in H; destruct H as [H1 H2];
      apply N.leb_le in H1; apply N.leb_le in H2; unfold printable; lia
  end.
Qed.

Lemma encode_str_printable (s : pystr) : Forall printable (Json.encode_str s).
Proof.
  unfold Json.encode_str. constructor; [unfold printable, chr_quote; lia|].
  apply Forall_app. split; [|apply printableb_spec; reflexivity].
  induction s as [|c s IH]; simpl; [constructor|].
  apply Forall_app. split; [apply escape_char_printable | exact IH].
Qed.

Section EncoderCharacters.

Variable floatstr : float -> pystr.
Variable indent : option nat.
Variable sort_keys : bool.

(** The characters allowed in the output: the printable ones, and the line
    feed when the encoder indents. *)
Variable allowed : pychar -> Prop.
Hypothesis allowed_printable : forall c, printable c -> allowed c.
Hypothesis allowed_newline : indent <> None -> allowed chr_newline.
Hypothesis floatstr_allowed : forall f, Forall allowed (floatstr f).

Let encode := Json.encode floatstr indent sort_keys.

Lemma allowed_of_printable (s : pystr) : Forall printable s -> Forall allowed s.
Proof. apply Forall_impl. exact allowed_printable. Qed.

Lemma newline_indent_allowed (level : nat) :
  Forall allowed (Json.newline_indent indent level).
Proof.
  unfold Json.newline_indent. destruct indent as [n|] eqn:E; [|constructor].
  constructor; [apply allowed_newline; discriminate|].
  apply Forall_forall. intros c Hc. apply repeat_spec in Hc. subst.
  apply allowed_printable. unfold printable. lia.
Qed.

Lemma join_allowed (sep : pystr) (parts : list pystr) :
  Forall allowed sep -> Forall (Forall allowed) parts -> Forall allowed (Str.join sep parts).
Proof.
  intros Hsep. induction 1 as [|p rest Hp Hrest IH]; simpl; [constructor|].
  destruct rest as [|q rest]; [exact Hp|].
  apply Forall_app. split; [exact Hp|]. apply Forall_app. split; [exact Hsep | exact IH].
Qed.

Lemma render_container_allowed (open close : pychar) (level : nat) (items : list pystr) :
  printable open -> printable close -> Forall (Forall allowed) items ->
  Forall allowed (Json.render_container indent open close level items).
Proof.
  intros Ho Hc Hi. unfold Json.render_container.
  destruct items as [|i items]; [repeat constructor; apply allowed_printable; assumption|].
  constructor; [apply allowed_printable; exact Ho|].
  apply Forall_app. split; [apply newline_indent_allowed|].
  apply Forall_app. split.
  - apply join_allowed; [|exact Hi].
    apply Forall_app. split; [|apply newline_indent_allowed].
    apply allowed_of_printable. unfold Json.item_separator.
    destruct indent; apply printableb_spec; reflexivity.
  - apply Forall_app. split; [apply newline_indent_allowed|].
    repeat constructor. apply allowed_printable. exact Hc.
Qed.

Lemma encode_allowed (v : pyval) : forall level, Forall allowed (encode level v).
Proof.
  induction v as [| b | z | f | s | l IH | d IH] using pyval_nested_ind; intros level.
  - apply allowed_of_printable, printableb_spec. reflexivity.
  - destruct b; apply allowed_of_printable, printableb_spec; reflexivity.
  - apply allowed_of_printable, printable_of_int.
  - apply floatstr_allowed.
  - apply allowed_of_printable, encode_str_printable.
  - unfold encode. rewrite encode_list_eq.
    apply render_container_allowed; [unfold printable; lia | unfold printable; lia |].
    apply Forall_forall. intros t Ht. apply in_map_iff in Ht.
    destruct Ht as (x & <- & Hx). rewrite Forall_forall in IH. apply IH. exact Hx.
  - unfold encode. rewrite encode_dict_eq.
    apply render_container_allowed; [unfold printable; lia | unfold printable; lia |].
    apply Forall_forall. intros t Ht. apply in_map_iff in Ht.
    destruct Ht as ([k e] & <- & Hke).
    apply (Permutation_in _ (order_items_perm sort_keys _)) in Hke.
    apply in_map_iff in Hke. destruct Hke as ([k' x] & Heq & Hx).
    inversion Heq; subst. unfold Json.render_item. cbn [fst snd].
    apply Forall_app. split; [apply allowed_of_printable, encode_str_printable|].
    apply Forall_app. split; [apply allowed_of_printable, printableb_spec; reflexivity|].
    rewrite Forall_forall in IH. apply (IH _ Hx).
Qed.

End EncoderCharacters.

(** The JSON of a snapshot holds printable ASCII characters and line feeds
    only, whatever its strings hold (the float texts being printable): every
    other character is written as an escape. *)
Theorem to_json_characters (floatstr : float -> pystr) (snapshot : TelemetrySnapshot) :
  (forall f, Forall printable (floatstr f)) ->
  Forall (fun c => c = chr_newline \/ printable c) (to_json floatstr snapshot).
Proof.
  intros Hf. unfold to_json, Json.dumps.
  apply (@encode_allowed floatstr (Some 2%nat) true
           (fun c => c = chr_newline \/ printable c)).
  - intros c Hc. right. exact Hc.
  - intros _. left. reflexivity.
  - intros f. apply (Forall_impl _ (fun c Hc => or_intror Hc)). apply Hf.
Qed.

Lemma sample_floatstr_printable (f : float) : Forall printable (sample_floatstr f).
Proof.
  unfold sample_floatstr.
  repeat match goal with
         | |- Forall printable (if ?b then _ else _) => destruct b
         end; apply printableb_spec; reflexivity.
Qed.

(** A snapshot whose strings hold a tabulation, an accented letter and a
    character beyond the basic plane. *)
Lemma to_json_characters_example :
  (forall f, Forall printable (sample_floatstr f))
  /\ Forall (fun c => c = chr_newline \/ printable c)
            (to_json sample_floatstr
               {| data := [ (u "name" ++ [233], PStr [9; 128512; 10]) ] |}).
Proof.
  split; [exact sample_floatstr_printable|].
  exact (@to_json_characters sample_floatstr _ sample_floatstr_printable).
Defined.

Lemma latin_bytes_to_N (s : pystr) :
  Forall printable s -> map Byte.to_N (latin_bytes s) = s.
Proof.
  induction 1 as [|c s Hc _ IH]; simpl; [reflexivity|].
  rewrite IH. f_equal. unfold Utf8.byte_of, printable in *.
  destruct (Byte.of_N c) as [b|] eqn:E.
  - apply Byte.to_of_N. exact E.
  - exfalso. apply Byte.of_N_None_iff in E. lia.
Qed.

(** The JSON text [analyze] builds for the body of its request always
    encodes, and its encoding is one line of printable ASCII: every byte is
    between 32 and 126, whatever the model name and the snapshot hold. *)
Theorem request_body_characters (floatstr : float -> pystr)
        (self : ChatGPTTelemetryAnalyzer.t) (snapshot : TelemetrySnapshot) :
  (forall f, Forall printable (floatstr f)) ->
  exists body,
    Utf8.encode
      (Json.dumps floatstr None false
         (ChatGPTTelemetryAnalyzer.payload floatstr self snapshot)) = Some body
    /\ Forall (fun b => 32 <= Byte.to_N b <= 126) body.
Proof.
  intros Hf.
  assert (Forall printable
            (Json.dumps floatstr None false
               (ChatGPTTelemetryAnalyzer.payload floatstr self snapshot))) as Hp.
  { unfold Json.dumps.
    apply (@encode_allowed floatstr None false printable); [auto | congruence | exact Hf]. }
  assert (forall f, ascii_only (floatstr f)) as Ha.
  { intros f. apply (@Forall_impl _ printable (fun c => c < 128)); [|apply Hf].
    unfold printable. intros c Hc. lia. }
  eexists. split.
  - apply utf8_encode_ascii. apply (@dumps_ascii floatstr None false Ha).
  - apply Forall_forall. intros b Hb.
    apply (in_map Byte.to_N) in Hb. rewrite (latin_bytes_to_N Hp) in Hb.
    rewrite Forall_forall in Hp. exact (Hp _ Hb).
Qed.

Lemma request_body_characters_example :
  (forall f, Forall printable (sample_floatstr f))
  /\ exists body,
       Utf8.encode
         (Json.dumps sample_floatstr None false
            (ChatGPTTelemetryAnalyzer.payload sample_floatstr sample_analyzer
               {| data := [ (u "name" ++ [233], PStr [9; 128512; 10]) ] |})) = Some body
       /\ Forall (fun b => 32 <= Byte.to_N b <= 126) body.
Proof.
  split; [exact sample_floatstr_printable|].
  exact (@request_body_characters sample_floatstr sample_analyzer _
           sample_floatstr_printable).
Defined.

(** * Further properties of the analysis client *)

Lemma trimmed_nil : trimmed [].
Proof.
  split; [intros c t H; discriminate | intros t c H; destruct t; discriminate].
Qed.

Lemma first_content_trimmed (choices : list pyval) :
  trimmed (ChatGPTTelemetryAnalyzer.first_content choices).
Proof.
  induction choices as [|choice rest IH]; [exact trimmed_nil|].
  rewrite first_content_cons.
  destruct (content_of choice); [apply strip_trimmed | exact IH].
Qed.

Lemma extract_object (d : dict) :
  exists analysis,
    ChatGPTTelemetryAnalyzer._extract_message (PDict d) = Ok analysis
    /\ trimmed analysis.
Proof.
  unfold ChatGPTTelemetryAnalyzer._extract_message.
  destruct (ChatGPTTelemetryAnalyzer.iterable (Dict.get d (u "choices"))) as [items|].
  - eexists. split; [reflexivity | apply first_content_trimmed].
  - eexists. split; [reflexivity | exact trimmed_nil].
Qed.

Lemma extract_non_object (v : pyval) :
  ~ is_mapping v ->
  ChatGPTTelemetryAnalyzer._extract_message v = Raise AttributeError.
Proof.
  intros Hn. destruct v; try reflexivity. exfalso. apply Hn. eexists. reflexivity.
Qed.

Lemma analyze_object (floatstr : float -> pystr) (json_loads : pystr -> option pyval)
      (self : ChatGPTTelemetryAnalyzer.t) (snapshot : TelemetrySnapshot)
      (net : network) (log : list Request) (raw : list byte) (body : pystr) (d : dict) :
  (forall f, ascii_only (floatstr f)) ->
  net (List.length log) (request_of floatstr self snapshot)
      (ChatGPTTelemetryAnalyzer.request_timeout self) = HTTPResponse raw ->
  Utf8.decode raw = Some body ->
  json_loads body = Some (PDict d) ->
  exists analysis,
    ChatGPTTelemetryAnalyzer._extract_message (PDict d) = Ok analysis
    /\ trimmed analysis
    /\ ChatGPTTelemetryAnalyzer.analyze floatstr json_loads self snapshot net log =
       (Ok [ (u "analysis", PStr analysis); (u "raw_response", PDict d) ],
        log ++ [request_of floatstr self snapshot]).
Proof.
  intros Hf Hnet Hd Hj.
  destruct (extract_object d) as (analysis & He & Ht).
  exists analysis. split; [exact He|]. split; [exact Ht|].
  rewrite (@analyze_outcome floatstr json_loads Hf), Hnet, Hd, Hj, He. reflexivity.
Qed.

(** Extraction returns a text for every object and raises
    [AttributeError] for every other value; the text it returns has no
    whitespace at either end. *)
Theorem extract_message_outcome (response_json : pyval) :
  match response_json with
  | PDict _ =>
      exists analysis,
        ChatGPTTelemetryAnalyzer._extract_message response_json = Ok analysis
        /\ trimmed analysis
  | _ => ChatGPTTelemetryAnalyzer._extract_message response_json = Raise AttributeError
  end.
Proof.
  destruct response_json as [| | | | | |d]; try reflexivity. apply extract_object.
Qed.

(** When the response is a 2xx whose body decodes to a JSON object,
    [analyze] returns the two-key result: the extracted text, without
    surrounding whitespace, under [analysis] and the decoded object itself
    under [raw_response]; it has issued one request. *)
Theorem analyze_success (floatstr : float -> pystr) (json_loads : pystr -> option pyval)
        (self : ChatGPTTelemetryAnalyzer.t) (snapshot : TelemetrySnapshot)
        (net : network) (log : list Request) (raw : list byte) (body : pystr) (d : dict) :
  (forall f, ascii_only (floatstr f)) ->
  net (List.length log) (request_of floatstr self snapshot)
      (ChatGPTTelemetryAnalyzer.request_timeout self) = HTTPResponse raw ->
  Utf8.decode raw = Some body ->
  json_loads body = Some (PDict d) ->
  exists analysis,
    ChatGPTTelemetryAnalyzer._extract_message (PDict d) = Ok analysis
    /\ trimmed analysis
    /\ ChatGPTTelemetryAnalyzer.analyze floatstr json_loads self snapshot net log =
       (Ok [ (u "analysis", PStr analysis); (u "raw_response", PDict d) ],
        log ++ [request_of floatstr self snapshot]).
Proof.
  intros Hf Hnet Hd Hj.
  exact (@analyze_object floatstr json_loads self snapshot net log raw body d Hf Hnet Hd Hj).
Qed.

Lemma analyze_success_example :
  (forall f, ascii_only (sample_floatstr f))
  /\ exists analysis,
       trimmed analysis
       /\ ChatGPTTelemetryAnalyzer.analyze sample_floatstr sample_json_loads
            sample_analyzer sample_snapshot
            (always (HTTPResponse
                       (latin_bytes
                          (json_text "{'choices':[{'message':{'content':' hello '}}]}"))))
            []
          = (Ok [ (u "analysis", PStr analysis); (u "raw_response", PDict response_hello) ],
             [] ++ [request_of sample_floatstr sample_analyzer sample_snapshot]).
Proof.
  split; [exact sample_floatstr_ascii|].
  destruct (@analyze_success sample_floatstr sample_json_loads sample_analyzer
              sample_snapshot
              (always (HTTPResponse
                         (latin_bytes
                            (json_text "{'choices':[{'message':{'content':' hello '}}]}"))))
              [] _ _ response_hello sample_floatstr_ascii eq_refl eq_refl eq_refl)
    as (analysis & _ & Ht & Ha).
  exists analysis. split; assumption.
Defined.

(** A 2xx body that is valid JSON and not an object (a list, a string, a
    number, [null]) makes [analyze] raise [AttributeError]: the lookup of
    [choices] is the one step of extraction that is not guarded. *)
Theorem analyze_non_object (floatstr : float -> pystr) (json_loads : pystr -> option pyval)
        (self : ChatGPTTelemetryAnalyzer.t) (snapshot : TelemetrySnapshot)
        (net : network) (log : list Request) (raw : list byte) (body : pystr)
        (parsed : pyval) :
  (forall f, ascii_only (floatstr f)) ->
  net (List.length log) (request_of floatstr self snapshot)
      (ChatGPTTelemetryAnalyzer.request_timeout self) = HTTPResponse raw ->
  Utf8.decode raw = Some body ->
  json_loads body = Some parsed ->
  ~ is_mapping parsed ->
  ChatGPTTelemetryAnalyzer.analyze floatstr json_loads self snapshot net log =
  (Raise AttributeError, log ++ [request_of floatstr self snapshot]).
Proof.
  intros Hf Hnet Hd Hj Hn.
  rewrite (@analyze_outcome floatstr json_loads Hf), Hnet, Hd, Hj.
  rewrite (extract_non_object Hn). reflexivity.
Qed.

Lemma analyze_non_object_example :
  (forall f, ascii_only (sample_floatstr f))
  /\ sample_json_loads (u "[]") = Some (PList [])
  /\ ChatGPTTelemetryAnalyzer.analyze sample_floatstr sample_json_loads
       sample_analyzer sample_snapshot (always (HTTPResponse (latin_bytes (u "[]")))) []
     = (Raise AttributeError,
        [] ++ [request_of sample_floatstr sample_analyzer sample_snapshot]).
Proof.
  split; [exact sample_floatstr_ascii|]. split; [reflexivity|].
  apply (@analyze_non_object sample_floatstr sample_json_loads sample_analyzer
           sample_snapshot (always (HTTPResponse (latin_bytes (u "[]")))) []
           (latin_bytes (u "[]")) (u "[]") (PList [])
           sample_floatstr_ascii eq_refl eq_refl eq_refl).
  intros [d Hd]. discriminate.
Defined.

(** A 2xx body that is not UTF-8 makes [analyze] raise
    [UnicodeDecodeError]: the decoding stands inside the [try] block, whose
    handlers catch [HTTPError] and [URLError] only. *)
Theorem analyze_undecodable_body (floatstr : float -> pystr)
        (json_loads : pystr -> option pyval)
        (self : ChatGPTTelemetryAnalyzer.t) (snapshot : TelemetrySnapshot)
        (net : network) (log : list Request) (raw : list byte) :
  (forall f, ascii_only (floatstr f)) ->
  net (List.length log) (request_of floatstr self snapshot)
      (ChatGPTTelemetryAnalyzer.request_timeout self) = HTTPResponse raw ->
  Utf8.decode raw = None ->
  ChatGPTTelemetryAnalyzer.analyze floatstr json_loads self snapshot net log =
  (Raise UnicodeDecodeError, log ++ [request_of floatstr self snapshot]).
Proof.
  intros Hf Hnet Hd. rewrite (@analyze_outcome floatstr json_loads Hf), Hnet, Hd.
  reflexivity.
Qed.

Lemma analyze_undecodable_body_example :
  (forall f, ascii_only (sample_floatstr f))
  /\ Utf8.decode [xff] = None
  /\ ChatGPTTelemetryAnalyzer.analyze sample_floatstr sample_json_loads
       sample_analyzer sample_snapshot (always (HTTPResponse [xff])) []
     = (Raise UnicodeDecodeError,
        [] ++ [request_of sample_floatstr sample_analyzer sample_snapshot]).
Proof.
  split; [exact sample_floatstr_ascii|]. split; [reflexivity|].
  exact (@analyze_undecodable_body sample_floatstr sample_json_loads sample_analyzer
           sample_snapshot (always (HTTPResponse [xff])) [] [xff]
           sample_floatstr_ascii eq_refl eq_refl).
Defined.

(** The API key reaches the request in the [Authorization] header and
    nowhere else: two analyzers with the same model and endpoint build
    requests with the same body, URL and method, whatever their keys and
    timeouts. *)
Theorem api_key_only_in_header (floatstr : float -> pystr)
        (a b : ChatGPTTelemetryAnalyzer.t) (snapshot : TelemetrySnapshot) :
  ChatGPTTelemetryAnalyzer.model a = ChatGPTTelemetryAnalyzer.model b ->
  ChatGPTTelemetryAnalyzer.endpoint a = ChatGPTTelemetryAnalyzer.endpoint b ->
  match ChatGPTTelemetryAnalyzer.build_request floatstr a snapshot,
        ChatGPTTelemetryAnalyzer.build_request floatstr b snapshot with
  | Ok ra, Ok rb =>
      req_data ra = req_data rb /\ full_url ra = full_url rb
      /\ req_method ra = req_method rb
      /\ req_headers ra =
         [ (u "Content-Type", u "application/json");
           (u "Authorization", u "Bearer " ++ ChatGPTTelemetryAnalyzer.api_key a) ]
      /\ req_headers rb =
         [ (u "Content-Type", u "application/json");
           (u "Authorization", u "Bearer " ++ ChatGPTTelemetryAnalyzer.api_key b) ]
  | Raise ea, Raise eb => ea = eb
  | _, _ => False
  end.
Proof.
  intros Hm He. unfold ChatGPTTelemetryAnalyzer.build_request.
  assert (ChatGPTTelemetryAnalyzer.payload floatstr a snapshot =
          ChatGPTTelemetryAnalyzer.payload floatstr b snapshot) as ->.
  { unfold ChatGPTTelemetryAnalyzer.payload. rewrite Hm. reflexivity. }
  destruct (Utf8.encode _) as [body|]; [|reflexivity].
  cbn [req_data full_url req_method req_headers]. rewrite He.
  repeat split.
Qed.

Lemma api_key_only_in_header_example :
  match ChatGPTTelemetryAnalyzer.build_request sample_floatstr sample_analyzer sample_snapshot,
        ChatGPTTelemetryAnalyzer.build_request sample_floatstr sample_analyzer_other_key
          sample_snapshot with
  | Ok ra, Ok rb => req_data ra = req_data rb /\ req_headers ra <> req_headers rb
  | _, _ => False
  end.
Proof.
  pose proof (@api_key_only_in_header sample_floatstr sample_analyzer
                sample_analyzer_other_key sample_snapshot eq_refl eq_refl) as H.
  rewrite !(@build_request_ok sample_floatstr sample_floatstr_ascii) in *.
  destruct H as (Hd & _ & _ & Ha & Hb). split; [exact Hd|].
  rewrite Ha, Hb. intros Heq. vm_compute in Heq. discriminate.
Defined.

(** * Properties of the command line *)

(** In collect-only mode, with or without an API key, [main] prints the
    snapshot's JSON, returns 0 and issues no request, whenever [collect]
    returns the snapshot. *)
Theorem main_collect_only (floatstr : float -> pystr) (json_loads : pystr -> option pyval)
        (parse_args : arg_parser) (environ : pystr -> option pystr)
        (h : host) (net : network) (argv : list pystr) (w : world)
        (args : Namespace) (snapshot : TelemetrySnapshot) :
  parse_args (parser_defaults environ) argv = Parsed args ->
  ns_collect_only args = true ->
  TelemetryCollector.collect h = Ok snapshot ->
  main floatstr json_loads parse_args environ h net argv w =
  (Returned 0,
   {| stdout := stdout w ++ [PStr (to_json floatstr snapshot)];
      requests := requests w |}).
Proof.
  intros Hp Hc Hs. unfold main, main_on, _parse_args. rewrite Hp, Hc, Hs. simpl.
  rewrite Hc. reflexivity.
Qed.

Lemma main_collect_only_example :
  exists snapshot,
    TelemetryCollector.collect bare_host = Ok snapshot
    /\ no_environ (u "OPENAI_API_KEY") = None
    /\ main sample_floatstr sample_json_loads sample_parse_args no_environ bare_host
            (always (Failure TimeoutError)) [u "--collect-only"] empty_world
       = (Returned 0,
          {| stdout := [PStr (to_json sample_floatstr snapshot)]; requests := [] |}).
Proof.
  destruct (TelemetryCollector.collect bare_host) as [snapshot|e] eqn:E.
  - exists snapshot. split; [reflexivity|]. split; [reflexivity|].
    exact (@main_collect_only sample_floatstr sample_json_loads sample_parse_args
             no_environ bare_host (always (Failure TimeoutError)) [u "--collect-only"]
             empty_world _ snapshot eq_refl eq_refl E).
  - exfalso. vm_compute in E. discriminate.
Defined.

(** Without collect-only mode and without an API key (none, or the empty
    string), [main] ends in [SystemExit] with status 2 before anything else
    happens: nothing is printed and no request is issued, on every host and
    every network. *)
Theorem main_missing_key (floatstr : float -> pystr) (json_loads : pystr -> option pyval)
        (parse_args : arg_parser) (environ : pystr -> option pystr)
        (h : host) (net : network) (argv : list pystr) (w : world) (args : Namespace) :
  parse_args (parser_defaults environ) argv = Parsed args ->
  ns_collect_only args = false ->
  ns_api_key args = None \/ ns_api_key args = Some [] ->
  main floatstr json_loads parse_args environ h net argv w = (SystemExit 2, w).
Proof.
  intros Hp Hc Hk. unfold main, main_on, _parse_args. rewrite Hp, Hc.
  destruct Hk as [-> | ->]; reflexivity.
Qed.

(** No argument and no [OPENAI_API_KEY], on a host where [collect] would
    raise. *)
Lemma main_missing_key_example :
  main sample_floatstr sample_json_loads sample_parse_args no_environ
       host_loadavg_unobtainable (always (Failure TimeoutError)) [] empty_world
  = (SystemExit 2, empty_world).
Proof.
  exact (@main_missing_key sample_floatstr sample_json_loads sample_parse_args
           no_environ host_loadavg_unobtainable (always (Failure TimeoutError)) []
           empty_world _ eq_refl eq_refl (or_introl eq_refl)).
Defined.

(** The step of [main] after a successful analysis, on an analysis that is
    a text. *)
Lemma main_on_analysis (stdout_encodes : pystr -> bool)
      (floatstr : float -> pystr) (json_loads : pystr -> option pyval)
      (parse_args : arg_parser) (environ : pystr -> option pystr)
      (h : host) (net : network) (argv : list pystr) (w : world)
      (args : Namespace) (key : pystr) (snapshot : TelemetrySnapshot)
      (raw : list byte) (body : pystr) (d : dict) :
  (forall f, ascii_only (floatstr f)) ->
  parse_args (parser_defaults environ) argv = Parsed args ->
  ns_collect_only args = false ->
  ns_api_key args = Some key -> key <> [] ->
  TelemetryCollector.collect h = Ok snapshot ->
  net (List.length (requests w)) (request_of floatstr (analyzer_of args key) snapshot)
      (Some (ns_timeout args)) = HTTPResponse raw ->
  Utf8.decode raw = Some body ->
  json_loads body = Some (PDict d) ->
  exists analysis,
    ChatGPTTelemetryAnalyzer._extract_message (PDict d) = Ok analysis
    /\ main_on stdout_encodes floatstr json_loads parse_args environ h net argv w =
       if stdout_encodes analysis
       then (Returned 0,
             {| stdout := stdout w ++ [PStr analysis];
                requests :=
                  requests w ++ [request_of floatstr (analyzer_of args key) snapshot] |})
       else (Uncaught UnicodeEncodeError,
             {| stdout := stdout w;
                requests :=
                  requests w ++ [request_of floatstr (analyzer_of args key) snapshot] |}).
Proof.
  intros Hf Hp Hc Hk Hne Hs Hnet Hd Hj.
  destruct (@analyze_object floatstr json_loads (analyzer_of args key) snapshot net
              (requests w) raw body d Hf Hnet Hd Hj) as (analysis & He & _ & Ha).
  exists analysis. split; [exact He|].
  unfold main_on, _parse_args. rewrite Hp, Hc, Hk, Hs.
  destruct key as [|c key]; [congruence|]. cbn [truthy negb andb format_api_key].
  rewrite Hc, Hk. cbn [format_api_key].
  unfold analyzer_of in Ha. cbv zeta. rewrite Ha. cbn [Dict.lookup].
  rewrite pystr_eqb_refl. unfold print. cbn [stdout requests].
  destruct (stdout_encodes analysis); reflexivity.
Qed.

(** With an API key, a snapshot and a 2xx response that decodes to a JSON
    object whose extracted analysis the standard output has bytes for,
    [main] issues one request, built from the namespace's key, model and
    endpoint, prints the extracted analysis and nothing else, and returns
    0. *)
Theorem main_analysis (stdout_encodes : pystr -> bool)
        (floatstr : float -> pystr) (json_loads : pystr -> option pyval)
        (parse_args : arg_parser) (environ : pystr -> option pystr)
        (h : host) (net : network) (argv : list pystr) (w : world)
        (args : Namespace) (key : pystr) (snapshot : TelemetrySnapshot)
        (raw : list byte) (body : pystr) (d : dict) :
  (forall f, ascii_only (floatstr f)) ->
  parse_args (parser_defaults environ) argv = Parsed args ->
  ns_collect_only args = false ->
  ns_api_key args = Some key -> key <> [] ->
  TelemetryCollector.collect h = Ok snapshot ->
  net (List.length (requests w)) (request_of floatstr (analyzer_of args key) snapshot)
      (Some (ns_timeout args)) = HTTPResponse raw ->
  Utf8.decode raw = Some body ->
  json_loads body = Some (PDict d) ->
  (forall analysis,
      ChatGPTTelemetryAnalyzer._extract_message (PDict d) = Ok analysis ->
      stdout_encodes analysis = true) ->
  exists analysis,
    ChatGPTTelemetryAnalyzer._extract_message (PDict d) = Ok analysis
    /\ main_on stdout_encodes floatstr json_loads parse_args environ h net argv w =
       (Returned 0,
        {| stdout := stdout w ++ [PStr analysis];
           requests := requests w ++ [request_of floatstr (analyzer_of args key) snapshot] |}).
Proof.
  intros Hf Hp Hc Hk Hne Hs Hnet Hd Hj Henc.
  destruct (@main_on_analysis stdout_encodes floatstr json_loads parse_args environ h net
              argv w args key snapshot raw body d Hf Hp Hc Hk Hne Hs Hnet Hd Hj)
    as (analysis & He & Hm).
  exists analysis. split; [exact He|]. rewrite Hm, (Henc analysis He). reflexivity.
Qed.

(** No argument, the key in [OPENAI_API_KEY], the sample Linux host, a
    server that answers with one choice and a UTF-8 standard output. *)
Lemma main_analysis_example :
  exists snapshot,
    TelemetryCollector.collect linux_host = Ok snapshot
    /\ utf8_stdout (u "hello") = true
    /\ main_on utf8_stdout sample_floatstr sample_json_loads sample_parse_args
               environ_with_key linux_host
               (always (HTTPResponse
                          (latin_bytes
                             (json_text "{'choices':[{'message':{'content':' hello '}}]}"))))
               [] empty_world
       = (Returned 0,
          {| stdout := [PStr (u "hello")];
             requests :=
               [request_of sample_floatstr
                  (analyzer_of (parser_defaults environ_with_key) (u "sk-test"))
                  snapshot] |}).
Proof.
  destruct (TelemetryCollector.collect linux_host) as [snapshot|e] eqn:E.
  - exists snapshot. split; [reflexivity|]. split; [reflexivity|].
    destruct (@main_analysis utf8_stdout sample_floatstr sample_json_loads
                sample_parse_args environ_with_key linux_host
                (always (HTTPResponse
                           (latin_bytes
                              (json_text "{'choices':[{'message':{'content':' hello '}}]}"))))
                [] empty_world (parser_defaults environ_with_key) (u "sk-test") snapshot
                _ _ response_hello
                sample_floatstr_ascii eq_refl eq_refl eq_refl
                ltac:(discriminate) E eq_refl eq_refl eq_refl
                ltac:(intros analysis He; vm_compute in He; inversion He; reflexivity))
      as (analysis & He & Hm).
    vm_compute in He. inversion He; subst. exact Hm.
  - exfalso. vm_compute in E. discriminate.
Defined.

(** With an API key, a snapshot and a 2xx response that decodes to a JSON
    object whose extracted analysis the standard output has no bytes for
    (it holds a lone surrogate, or a character outside the encoding),
    [main] has issued its request when [print] raises
    [UnicodeEncodeError]: the exception leaves [main], nothing is printed
    and no status is returned. *)
Theorem main_unprintable_analysis (stdout_encodes : pystr -> bool)
        (floatstr : float -> pystr) (json_loads : pystr -> option pyval)
        (parse_args : arg_parser) (environ : pystr -> option pystr)
        (h : host) (net : network) (argv : list pystr) (w : world)
        (args : Namespace) (key : pystr) (snapshot : TelemetrySnapshot)
        (raw : list byte) (body : pystr) (d : dict) :
  (forall f, ascii_only (floatstr f)) ->
  parse_args (parser_defaults environ) argv = Parsed args ->
  ns_collect_only args = false ->
  ns_api_key args = Some key -> key <> [] ->
  TelemetryCollector.collect h = Ok snapshot ->
  net (List.length (requests w)) (request_of floatstr (analyzer_of args key) snapshot)
      (Some (ns_timeout args)) = HTTPResponse raw ->
  Utf8.decode raw = Some body ->
  json_loads body = Some (PDict d) ->
  (forall analysis,
      ChatGPTTelemetryAnalyzer._extract_message (PDict d) = Ok analysis ->
      stdout_encodes analysis = false) ->
  main_on stdout_encodes floatstr json_loads parse_args environ h net argv w =
  (Uncaught UnicodeEncodeError,
   {| stdout := stdout w;
      requests := requests w ++ [request_of floatstr (analyzer_of args key) snapshot] |}).
Proof.
  intros Hf Hp Hc Hk Hne Hs Hnet Hd Hj Henc.
  destruct (@main_on_analysis stdout_encodes floatstr json_loads parse_args environ h net
              argv w args key snapshot raw body d Hf Hp Hc Hk Hne Hs Hnet Hd Hj)
    as (analysis & He & Hm).
  rewrite Hm, (Henc analysis He). reflexivity.
Qed.

(** A server whose answer holds the escape of a lone surrogate, on a UTF-8
    standard output. *)
Lemma main_unprintable_analysis_example :
  exists snapshot,
    TelemetryCollector.collect linux_host = Ok snapshot
    /\ ChatGPTTelemetryAnalyzer._extract_message (PDict response_surrogate) = Ok [55357]
    /\ utf8_stdout [55357] = false
    /\ main_on utf8_stdout sample_floatstr surrogate_json_loads sample_parse_args
               environ_with_key linux_host
               (always (HTTPResponse
                          (latin_bytes
                             (json_text "{'choices':[{'message':{'content':'\ud83d'}}]}"))))
               [] empty_world
       = (Uncaught UnicodeEncodeError,
          {| stdout := [];
             requests :=
               [request_of sample_floatstr
                  (analyzer_of (parser_defaults environ_with_key) (u "sk-test"))
                  snapshot] |}).
Proof.
  destruct (TelemetryCollector.collect linux_host) as [snapshot|e] eqn:E.
  - exists snapshot. split; [reflexivity|]. split; [reflexivity|]. split; [reflexivity|].
    exact (@main_unprintable_analysis utf8_stdout sample_floatstr surrogate_json_loads
             sample_parse_args environ_with_key linux_host
             (always (HTTPResponse
                        (latin_bytes
                           (json_text "{'choices':[{'message':{'content':'\ud83d'}}]}"))))
             [] empty_world (parser_defaults environ_with_key) (u "sk-test") snapshot
             _ _ response_surrogate
             sample_floatstr_ascii eq_refl eq_refl eq_refl
             ltac:(discriminate) E eq_refl eq_refl eq_refl
             ltac:(intros analysis He; vm_compute in He; inversion He; reflexivity)).
  - exfalso. vm_compute in E. discriminate.
Defined.

Lemma analyze_log_cases (floatstr : float -> pystr) (json_loads : pystr -> option pyval)
      (self : ChatGPTTelemetryAnalyzer.t) (snapshot : TelemetrySnapshot)
      (net : network) (log : list Request) :
  snd (ChatGPTTelemetryAnalyzer.analyze floatstr json_loads self snapshot net log) = log
  \/ exists request,
       snd (ChatGPTTelemetryAnalyzer.analyze floatstr json_loads self snapshot net log)
       = log ++ [request].
Proof.
  unfold ChatGPTTelemetryAnalyzer.analyze.
  destruct (ChatGPTTelemetryAnalyzer.build_request floatstr self snapshot) as [request|e];
    [|left; reflexivity].
  right. exists request.
  unfold ChatGPTTelemetryAnalyzer.exchange, urlopen.
  destruct (net _ _ _) as [raw|code raw|code e|reason|e]; try reflexivity.
  destruct (Utf8.decode raw); reflexivity.
Qed.

Lemma print_cases (stdout_encodes : pystr -> bool) (value : pyval) (w : world) :
  print stdout_encodes value w
  = Ok {| stdout := stdout w ++ [value]; requests := requests w |}
  \/ print stdout_encodes value w = Raise UnicodeEncodeError.
Proof.
  unfold print. destruct value; try (left; reflexivity).
  destruct (stdout_encodes s); [left | right]; reflexivity.
Qed.

(** Whatever the arguments, the host, the network and the standard output:
    [main] returns no status other than 0, and then has written exactly one
    value; when it ends in [SystemExit] it has issued no request and has
    written nothing, or its status is 0 and it has written the help text of
    the parser; when another exception leaves it, it has written nothing;
    and in every case it has issued at most one request. *)
Theorem main_effects (stdout_encodes : pystr -> bool)
        (floatstr : float -> pystr) (json_loads : pystr -> option pyval)
        (parse_args : arg_parser) (environ : pystr -> option pystr)
        (h : host) (net : network) (argv : list pystr) (w : world) :
  match fst (main_on stdout_encodes floatstr json_loads parse_args environ h net argv w) with
  | Returned status =>
      status = 0%Z
      /\ exists printed,
           stdout (snd (main_on stdout_encodes floatstr json_loads parse_args environ
                          h net argv w))
           = stdout w ++ [printed]
  | SystemExit status =>
      requests (snd (main_on stdout_encodes floatstr json_loads parse_args environ
                       h net argv w)) = requests w
      /\ (stdout (snd (main_on stdout_encodes floatstr json_loads parse_args environ
                         h net argv w)) = stdout w
          \/ (status = 0%Z
              /\ exists help,
                   parse_args (parser_defaults environ) argv = ParserHelp help
                   /\ stdout (snd (main_on stdout_encodes floatstr json_loads parse_args
                                     environ h net argv w))
                      = stdout w ++ [PStr help]))
  | Uncaught _ =>
      stdout (snd (main_on stdout_encodes floatstr json_loads parse_args environ
                     h net argv w)) = stdout w
  end
  /\ (requests (snd (main_on stdout_encodes floatstr json_loads parse_args environ
                       h net argv w)) = requests w
      \/ exists request,
           requests (snd (main_on stdout_encodes floatstr json_loads parse_args environ
                            h net argv w))
           = requests w ++ [request]).
Proof.
  unfold main_on, _parse_args.
  destruct (parse_args (parser_defaults environ) argv) as [args|status|help] eqn:Hp.
  - destruct (negb (ns_collect_only args) && negb (truthy (ns_api_key args)));
      [split; [split; [reflexivity | left; reflexivity] | left; reflexivity]|].
    destruct (TelemetryCollector.collect h) as [snapshot|e];
      [|split; [reflexivity | left; reflexivity]].
    destruct (ns_collect_only args).
    { destruct (print_cases stdout_encodes (PStr (to_json floatstr snapshot)) w) as [H|H];
        rewrite H; cbn [fst snd stdout requests].
      - split; [split; [reflexivity | eexists; reflexivity] | left; reflexivity].
      - split; [reflexivity | left; reflexivity]. }
    cbv zeta.
    match goal with
    | |- context [ChatGPTTelemetryAnalyzer.analyze floatstr json_loads ?a snapshot net ?l] =>
        pose proof (analyze_log_cases floatstr json_loads a snapshot net l) as Hlog;
        destruct (ChatGPTTelemetryAnalyzer.analyze floatstr json_loads a snapshot net l)
          as [[result|e] log]
    end; cbn [snd] in Hlog.
    + destruct (Dict.lookup result (u "analysis")) as [analysis|].
      * match goal with
        | |- context [print stdout_encodes analysis ?w0] =>
            destruct (print_cases stdout_encodes analysis w0) as [H|H]; rewrite H
        end; cbn [fst snd stdout requests].
        -- split; [split; [reflexivity | eexists; reflexivity] | exact Hlog].
        -- split; [reflexivity | exact Hlog].
      * cbn [fst snd stdout requests]. split; [reflexivity | exact Hlog].
    + cbn [fst snd stdout requests]. split; [reflexivity | exact Hlog].
  - split; [split; [reflexivity | left; reflexivity] | left; reflexivity].
  - destruct (print_cases stdout_encodes (PStr help) w) as [H|H];
      rewrite H; cbn [fst snd stdout requests].
    + split; [|left; reflexivity].
      split; [reflexivity|]. right. split; [reflexivity|].
      exists help. split; reflexivity.
    + split; [reflexivity | left; reflexivity].
Qed.

(** The help of the parser on an empty standard output. *)
Lemma main_effects_help :
  main_on utf8_stdout sample_floatstr sample_json_loads help_parse_args no_environ
          linux_host (always (Failure TimeoutError)) [u "--help"] empty_world
  = (SystemExit 0,
     {| stdout := [PStr (u "usage: telemetry_system.py [-h]")]; requests := [] |}).
Proof. vm_compute. reflexivity. Qed.

(** With no argument, provided [argparse] then returns the defaults: when
    [OPENAI_API_KEY] is unset or empty, [main] ends in [SystemExit] with
    status 2 and touches nothing; when it holds a key and [collect] returns
    a snapshot, the one request [main] issues carries this key, the model
    [gpt-4o-mini] and the default endpoint. *)
Theorem main_no_arguments (floatstr : float -> pystr) (json_loads : pystr -> option pyval)
        (parse_args : arg_parser) (environ : pystr -> option pystr)
        (h : host) (net : network) (w : world) :
  parse_args (parser_defaults environ) [] = Parsed (parser_defaults environ) ->
  (environ (u "OPENAI_API_KEY") = None \/ environ (u "OPENAI_API_KEY") = Some [] ->
   main floatstr json_loads parse_args environ h net [] w = (SystemExit 2, w))
  /\ (forall key snapshot,
         environ (u "OPENAI_API_KEY") = Some key -> key <> [] ->
         (forall f, ascii_only (floatstr f)) ->
         TelemetryCollector.collect h = Ok snapshot ->
         requests (snd (main floatstr json_loads parse_args environ h net [] w)) =
         requests w
         ++ [request_of floatstr
               {| ChatGPTTelemetryAnalyzer.api_key := key;
                  ChatGPTTelemetryAnalyzer.model := u "gpt-4o-mini";
                  ChatGPTTelemetryAnalyzer.endpoint :=
                    u "https://api.openai.com/v1/chat/completions";
                  ChatGPTTelemetryAnalyzer.request_timeout := Some 30%float |}
               snapshot]).
Proof.
  intros Hp. split.
  - intros Hk. unfold main, main_on, _parse_args. rewrite Hp.
    cbn [parser_defaults ns_collect_only ns_api_key].
    destruct Hk as [-> | ->]; reflexivity.
  - intros key snapshot Hk Hne Hf Hs.
    assert (_parse_args parse_args environ [] = Parsed (parser_defaults environ)) as Ha.
    { unfold _parse_args. rewrite Hp.
      cbn [parser_defaults ns_collect_only ns_api_key]. rewrite Hk.
      destruct key; [congruence | reflexivity]. }
    unfold main, main_on. rewrite Ha, Hs.
    cbn [parser_defaults ns_collect_only ns_api_key ns_model ns_endpoint ns_timeout].
    rewrite Hk. cbn [format_api_key]. cbv zeta.
    match goal with
    | |- context [ChatGPTTelemetryAnalyzer.analyze floatstr json_loads ?a snapshot net ?l] =>
        pose proof (@analyze_log floatstr json_loads Hf a snapshot net l) as Hlog;
        destruct (ChatGPTTelemetryAnalyzer.analyze floatstr json_loads a snapshot net l)
          as [[result|e] log]
    end; simpl in Hlog; subst log.
    + destruct (Dict.lookup result (u "analysis")) as [[]|]; reflexivity.
    + reflexivity.
Qed.

Lemma main_no_arguments_example :
  (sample_parse_args (parser_defaults no_environ) [] = Parsed (parser_defaults no_environ)
   /\ no_environ (u "OPENAI_API_KEY") = None
   /\ main sample_floatstr sample_json_loads sample_parse_args no_environ linux_host
           (always (Failure TimeoutError)) [] empty_world
      = (SystemExit 2, empty_world))
  /\ (sample_parse_args (parser_defaults environ_with_key) []
      = Parsed (parser_defaults environ_with_key)
      /\ environ_with_key (u "OPENAI_API_KEY") = Some (u "sk-test")
      /\ exists snapshot,
           TelemetryCollector.collect linux_host = Ok snapshot
           /\ requests
                (snd (main sample_floatstr sample_json_loads sample_parse_args
                        environ_with_key linux_host (always (Failure TimeoutError)) []
                        empty_world))
              = [] ++ [request_of sample_floatstr
                         {| ChatGPTTelemetryAnalyzer.api_key := u "sk-test";
                            ChatGPTTelemetryAnalyzer.model := u "gpt-4o-mini";
                            ChatGPTTelemetryAnalyzer.endpoint :=
                              u "https://api.openai.com/v1/chat/completions";
                            ChatGPTTelemetryAnalyzer.request_timeout := Some 30%float |}
                         snapshot]).
Proof.
  split.
  - split; [reflexivity|]. split; [reflexivity|].
    exact (proj1 (@main_no_arguments sample_floatstr sample_json_loads sample_parse_args
                    no_environ linux_host (always (Failure TimeoutError)) empty_world
                    eq_refl) (or_introl eq_refl)).
  - split; [reflexivity|]. split; [reflexivity|].
    destruct (TelemetryCollector.collect linux_host) as [snapshot|e] eqn:E.
    + exists snapshot. split; [reflexivity|].
      apply (proj2 (@main_no_arguments sample_floatstr sample_json_loads sample_parse_args
                      environ_with_key linux_host (always (Failure TimeoutError))
                      empty_world eq_refl) (u "sk-test") snapshot eq_refl).
      * discriminate.
      * exact sample_floatstr_ascii.
      * exact E.
    + exfalso. vm_compute in E. discriminate.
Defined.
